(** * P2PChallengeTradePanel: the dual-confirmation settlement panel

    A shallow embedding of the logic of the [P2PChallengeTradePanel] React
    component (proof upload, voting, countdown, dispute menu) and the
    properties of its settlement behaviour.

    Conventions of the embedding:
    - the component's [useState] cells are the fields of [PanelState]; every
      [setX(v)] of the source is the setter [setX v] of the record;
    - an [async] handler is a computation in the monad [M]: it threads the
      panel state, logs what it sends and shows ([Effect]), and may throw;
      what the server answers to an [await] is an argument of the handler;
    - a JavaScript object used as a dictionary is [JsObject.t]: its own
      properties in creation order, enumerated the way [Object.keys] does. *)

From Stdlib Require Import List String Ascii ZArith NArith Bool Lia.
From Stdlib Require Import Strings.Byte.
From Stdlib Require Import DecimalString Permutation.
Import ListNotations.

Local Open Scope string_scope.
Local Open Scope list_scope.

(** ** JavaScript objects as ordered dictionaries *)

Module JsObject.

Section WithValues.
Context {V : Type}.

(** Own enumerable string-keyed properties, in creation order; keys are
    pairwise distinct. *)
Definition t : Type := list (string * V).

Definition empty : t := [].

(** [o[k] = v] on own properties: an existing key keeps its place, a new
    key goes last. *)
Fixpoint put (k : string) (v : V) (o : t) : t :=
  match o with
  | [] => [(k, v)]
  | (k', v') :: rest =>
      if String.eqb k k' then (k', v) :: rest else (k', v') :: put k v rest
  end.

(** [o[k] = v] for an object created by a literal and [v] an object: the
    key ["__proto__"] reaches the inherited setter, which replaces the
    prototype and creates no own property. *)
Definition set (k : string) (v : V) (o : t) : t :=
  if String.eqb k "__proto__" then o else put k v o.

Definition digit_of (c : ascii) : option N :=
  let n := N_of_ascii c in
  if ((48 <=? n) && (n <=? 57))%N then Some (n - 48)%N else None.

Fixpoint parse_digits (s : string) (acc : N) : option N :=
  match s with
  | EmptyString => Some acc
  | String c rest =>
      match digit_of c with
      | Some d => parse_digits rest (10 * acc + d)%N
      | None => None
      end
  end.

(** A key is an array index when it is the canonical decimal numeral of an
    integer below 2^32 - 1. *)
Definition array_index (k : string) : option N :=
  match k with
  | EmptyString => None
  | String "0"%char EmptyString => Some 0%N
  | String "0"%char _ => None
  | _ =>
      match parse_digits k 0 with
      | Some n => if (n <? 4294967295)%N then Some n else None
      | None => None
      end
  end.

Fixpoint insert_by_index (e : N * (string * V)) (l : list (N * (string * V)))
  : list (N * (string * V)) :=
  match l with
  | [] => [e]
  | e' :: rest =>
      if (fst e <=? fst e')%N then e :: l else e' :: insert_by_index e rest
  end.

Fixpoint sort_by_index (l : list (N * (string * V))) : list (N * (string * V)) :=
  match l with
  | [] => []
  | e :: rest => insert_by_index e (sort_by_index rest)
  end.

Fixpoint index_entries (o : t) : list (N * (string * V)) :=
  match o with
  | [] => []
  | (k, v) :: rest =>
      match array_index k with
      | Some n => (n, (k, v)) :: index_entries rest
      | None => index_entries rest
      end
  end.

Fixpoint named_entries (o : t) : t :=
  match o with
  | [] => []
  | (k, v) :: rest =>
      match array_index k with
      | Some _ => named_entries rest
      | None => (k, v) :: named_entries rest
      end
  end.

(** The enumeration order of own properties: array indices ascending, then
    the other keys in creation order. *)
Definition entries (o : t) : t :=
  map snd (sort_by_index (index_entries o)) ++ named_entries o.

(** [Object.keys(o)] and [Object.values(o)]. *)
Definition keys (o : t) : list string := map fst (entries o).
Definition values (o : t) : list V := map snd (entries o).

End WithValues.

Arguments t : clear implicits.

End JsObject.

(** ** Data of the panel *)

(** [type Proof]. *)
Record Proof : Type := mkProof {
  id : Z;
  proof_uri : string;
  proof_hash : string;
  participant_id : option string;
  uploaded_at : option string
}.

(** ['challenger' | 'challenged']. *)
Inductive Choice : Type := challenger | challenged.

Definition Choice_eqb (a b : Choice) : bool :=
  match a, b with
  | challenger, challenger => true
  | challenged, challenged => true
  | _, _ => false
  end.

(** [type Vote]. *)
Record Vote : Type := mkVote {
  userId : string;
  choice : Choice;
  timestamp : string
}.

(** The values of the [status] cell other than [null]:
    ['uploading' | 'voting' | 'released' | 'disputed' | 'auto-released']. *)
Inductive Status : Type :=
  | st_uploading
  | st_voting
  | st_released
  | st_disputed
  | st_auto_released.

Definition Status_eqb (a b : Status) : bool :=
  match a, b with
  | st_uploading, st_uploading => true
  | st_voting, st_voting => true
  | st_released, st_released => true
  | st_disputed, st_disputed => true
  | st_auto_released, st_auto_released => true
  | _, _ => false
  end.

(** [status === lit]. *)
Definition status_is (s : option Status) (lit : Status) : bool :=
  match s with
  | Some x => Status_eqb x lit
  | None => false
  end.

(** A JavaScript number that is an integer or [NaN] (time values and their
    differences). *)
Inductive JsNumber : Type :=
  | NaN
  | Num (z : Z).

(** The [useState] cells of the component. *)
Record PanelState : Type := mkPanel {
  proofs : list Proof;
  votes : JsObject.t Vote;
  uploading : bool;
  progress : Z;
  selectedProof : option Proof;
  myVote : option Choice;
  countdownTime : option JsNumber;
  showDisputeMenu : bool;
  status : option Status
}.

Definition initialState : PanelState :=
  mkPanel [] JsObject.empty false 0 None None None false None.

Definition setProofs (v : list Proof) (s : PanelState) : PanelState :=
  mkPanel v (votes s) (uploading s) (progress s) (selectedProof s) (myVote s)
          (countdownTime s) (showDisputeMenu s) (status s).
Definition setVotes (v : JsObject.t Vote) (s : PanelState) : PanelState :=
  mkPanel (proofs s) v (uploading s) (progress s) (selectedProof s) (myVote s)
          (countdownTime s) (showDisputeMenu s) (status s).
Definition setUploading (v : bool) (s : PanelState) : PanelState :=
  mkPanel (proofs s) (votes s) v (progress s) (selectedProof s) (myVote s)
          (countdownTime s) (showDisputeMenu s) (status s).
Definition setProgress (v : Z) (s : PanelState) : PanelState :=
  mkPanel (proofs s) (votes s) (uploading s) v (selectedProof s) (myVote s)
          (countdownTime s) (showDisputeMenu s) (status s).
Definition setSelectedProof (v : option Proof) (s : PanelState) : PanelState :=
  mkPanel (proofs s) (votes s) (uploading s) (progress s) v (myVote s)
          (countdownTime s) (showDisputeMenu s) (status s).
Definition setMyVote (v : option Choice) (s : PanelState) : PanelState :=
  mkPanel (proofs s) (votes s) (uploading s) (progress s) (selectedProof s) v
          (countdownTime s) (showDisputeMenu s) (status s).
Definition setCountdownTime (v : option JsNumber) (s : PanelState) : PanelState :=
  mkPanel (proofs s) (votes s) (uploading s) (progress s) (selectedProof s)
          (myVote s) v (showDisputeMenu s) (status s).
Definition setShowDisputeMenu (v : bool) (s : PanelState) : PanelState :=
  mkPanel (proofs s) (votes s) (uploading s) (progress s) (selectedProof s)
          (myVote s) (countdownTime s) v (status s).
Definition setStatus (v : option Status) (s : PanelState) : PanelState :=
  mkPanel (proofs s) (votes s) (uploading s) (progress s) (selectedProof s)
          (myVote s) (countdownTime s) (showDisputeMenu s) v.

(** ** Effects and the handler monad *)

(** What the component sends to the server or the platform, and what it
    shows outside its own render tree. *)
Inductive Effect : Type :=
  | GetProofs
  | GetVotes
  | PostUpload (file : list byte)
  | DigestSha256 (data : list byte)
  | PostProof (proofUri proofHash : string)
  | PostVote (voteChoice : Choice) (proofHash : string)
  | PostDispute
  | Alert (message : string)
  | ConsoleError (label : string)
  | ClearInterval.

(** How an awaited call ends: with a value, or by throwing an error whose
    [message] may be absent. *)
Inductive Completion (A : Type) : Type :=
  | Normal (a : A)
  | Throw (message : option string).
Arguments Normal {A} a.
Arguments Throw {A} message.

(** What [fetch] followed by [res.ok] and [res.json()] gives: the request or
    the parsing throws, the response is not ok, or it carries a body. *)
Inductive FetchAnswer (A : Type) : Type :=
  | FetchThrows
  | FetchNotOk
  | FetchOk (json : A).
Arguments FetchThrows {A}.
Arguments FetchNotOk {A}.
Arguments FetchOk {A} json.

Definition M (A : Type) : Type :=
  PanelState -> Completion A * PanelState * list Effect.

Definition ret {A : Type} (a : A) : M A := fun s => (Normal a, s, []).

Definition bind {A B : Type} (m : M A) (k : A -> M B) : M B :=
  fun s =>
    match m s with
    | (Normal a, s1, l1) =>
        match k a s1 with
        | (r, s2, l2) => (r, s2, l1 ++ l2)
        end
    | (Throw msg, s1, l1) => (Throw msg, s1, l1)
    end.

Notation "x <- m ;; k" := (bind m (fun x => k))
  (at level 61, m at next level, right associativity).
Notation "m ;; k" := (bind m (fun _ => k))
  (at level 61, right associativity).

Definition get : M PanelState := fun s => (Normal s, s, []).
Definition update (f : PanelState -> PanelState) : M unit :=
  fun s => (Normal tt, f s, []).
Definition emit (e : Effect) : M unit := fun s => (Normal tt, s, [e]).

(** [await call]: the call is logged and ends the way the environment
    decides. *)
Definition await {A : Type} (call : Effect) (answer : Completion A) : M A :=
  fun s => (answer, s, [call]).

(** [const res = await fetch(..); if (!res.ok) ..; const data = await res.json()]:
    [None] stands for a response that is not ok. *)
Definition fetch {A : Type} (call : Effect) (answer : FetchAnswer A) : M (option A) :=
  match answer with
  | FetchThrows => await call (Throw None)
  | FetchNotOk => await call (Normal None)
  | FetchOk json => await call (Normal (Some json))
  end.

(** [try { body } catch (err) { handler(err) }]. *)
Definition tryCatch (body : M unit) (handler : option string -> M unit) : M unit :=
  fun s =>
    match body s with
    | (Normal a, s1, l1) => (Normal a, s1, l1)
    | (Throw msg, s1, l1) =>
        match handler msg s1 with
        | (r, s2, l2) => (r, s2, l1 ++ l2)
        end
    end.

Definition stateOf {A : Type} (r : Completion A * PanelState * list Effect) : PanelState :=
  snd (fst r).
Definition logOf {A : Type} (r : Completion A * PanelState * list Effect) : list Effect :=
  snd r.

(** ** Hashing output: bytes to lowercase hexadecimal *)

Definition hexDigit (d : N) : ascii :=
  if (d <? 10)%N then ascii_of_N (48 + d) else ascii_of_N (87 + d).

Fixpoint toStringRadix16 (fuel : nat) (n : N) (acc : string) : string :=
  let acc' := String (hexDigit (n mod 16)) acc in
  match fuel with
  | O => acc'
  | S fuel' =>
      if (n / 16 =? 0)%N then acc' else toStringRadix16 fuel' (n / 16)%N acc'
  end.

(** [n.toString(16)] for a non-negative integer. *)
Definition Number_toString16 (n : N) : string :=
  toStringRadix16 (N.to_nat (N.log2 n)) n "".

Fixpoint padFill (n : nat) (padString rest : string) : string :=
  match n with
  | O => ""
  | S n' =>
      match rest with
      | String c r => String c (padFill n' padString r)
      | EmptyString =>
          match padString with
          | String c r => String c (padFill n' padString r)
          | EmptyString => ""
          end
      end
  end.

(** [s.padStart(targetLength, padString)]. *)
Definition padStart (targetLength : nat) (padString s : string) : string :=
  if (targetLength <=? String.length s)%nat then s
  else padFill (targetLength - String.length s) padString padString ++ s.

(** [parts.join('')]. *)
Definition join (parts : list string) : string :=
  fold_right String.append "" parts.

(** [b => b.toString(16).padStart(2, '0')]. *)
Definition byteHex (b : byte) : string :=
  padStart 2 "0" (Number_toString16 (Byte.to_N b)).

(** [hashArray.map(b => b.toString(16).padStart(2, '0')).join('')]. *)
Definition hashHex (hashArray : list byte) : string :=
  join (map byteHex hashArray).

(** ** Handlers *)

Definition orEmpty {A : Type} (data : option (list A)) : list A :=
  match data with
  | Some l => l
  | None => []
  end.

(** [fetchProofs()]; the body may be [null] ([data || []]). *)
Definition fetchProofs (answer : FetchAnswer (option (list Proof))) : M unit :=
  tryCatch
    (res <- fetch GetProofs answer ;;
     match res with
     | None => ret tt
     | Some data => update (setProofs (orEmpty data))
     end)
    (fun _ => emit (ConsoleError "Error fetching proofs:")).

(** [data.forEach(v => { voteMap[v.userId] = {...} })] from [{}]. *)
Definition buildVoteMap (data : list Vote) : JsObject.t Vote :=
  fold_left
    (fun voteMap v =>
       JsObject.set (userId v) (mkVote (userId v) (choice v) (timestamp v)) voteMap)
    data JsObject.empty.

(** [a === b] where each side is a choice or [undefined]. *)
Definition strictEq (a b : option Choice) : bool :=
  match a, b with
  | Some x, Some y => Choice_eqb x y
  | None, None => true
  | _, _ => false
  end.

(** The test under which [fetchVotes] calls [setStatus('auto-released')]. *)
Definition autoReleaseCheck (voteMap : JsObject.t Vote) : bool :=
  if (List.length (JsObject.keys voteMap) =? 2)%nat then
    let voteChoices := map choice (JsObject.values voteMap) in
    strictEq (nth_error voteChoices 0) (nth_error voteChoices 1)
  else false.

(** [fetchVotes()]. *)
Definition fetchVotes (answer : FetchAnswer (list Vote)) : M unit :=
  tryCatch
    (res <- fetch GetVotes answer ;;
     match res with
     | None => ret tt
     | Some data =>
         let voteMap := buildVoteMap data in
         update (setVotes voteMap) ;;
         if autoReleaseCheck voteMap
         then update (setStatus (Some st_auto_released))
         else ret tt
     end)
    (fun _ => emit (ConsoleError "Error fetching votes:")).

(** The body of the upload response that the handler reads. *)
Record UploadJson : Type := mkUploadJson { imageUrl : string }.

Definition uploadFailed : M unit :=
  emit (Alert "Upload failed") ;;
  update (setUploading false) ;;
  update (setStatus None).

(** [handleFile(file)]. The answers are those of the upload request, of
    [file.arrayBuffer()] with [crypto.subtle.digest('SHA-256', ..)], of the
    proof registration and of the [fetchProofs()] that follows it. The
    [setTimeout(() => setProgress(0), 700)] is the later event
    [EvProgressReset]. *)
Definition handleFile (file : list byte)
    (uploadAnswer : FetchAnswer UploadJson)
    (digestAnswer : Completion (list byte))
    (registerAnswer : Completion Proof)
    (proofsAnswer : FetchAnswer (option (list Proof))) : M unit :=
  update (setUploading true) ;;
  update (setProgress 5) ;;
  update (setStatus (Some st_uploading)) ;;
  tryCatch
    (uploadRes <- fetch (PostUpload file) uploadAnswer ;;
     match uploadRes with
     | None => uploadFailed
     | Some uploadJson =>
         update (setProgress 40) ;;
         hashArray <- await (DigestSha256 file) digestAnswer ;;
         let hashHex := hashHex hashArray in
         update (setProgress 60) ;;
         proof <- await (PostProof (imageUrl uploadJson) hashHex) registerAnswer ;;
         update (setProgress 90) ;;
         fetchProofs proofsAnswer ;;
         update (setUploading false) ;;
         update (setProgress 100) ;;
         update (setSelectedProof (Some proof)) ;;
         update (setStatus (Some st_voting))
     end)
    (fun _ => emit (ConsoleError "Error uploading file:") ;; uploadFailed).

(** [handleVote(choice)]. *)
Definition handleVote (choice : Choice)
    (voteAnswer : Completion unit)
    (votesAnswer : FetchAnswer (list Vote)) : M unit :=
  s <- get ;;
  match selectedProof s with
  | None => emit (Alert "Please select a proof first")
  | Some p =>
      tryCatch
        (await (PostVote choice (proof_hash p)) voteAnswer ;;
         update (setMyVote (Some choice)) ;;
         fetchVotes votesAnswer)
        (fun _ => emit (ConsoleError "Error voting:") ;; emit (Alert "Vote failed"))
  end.

(** [err?.message || fallback]. *)
Definition messageOr (message : option string) (fallback : string) : string :=
  match message with
  | Some m => if String.eqb m "" then fallback else m
  | None => fallback
  end.

(** [handleOpenDispute()]. *)
Definition handleOpenDispute (disputeAnswer : Completion unit) : M unit :=
  tryCatch
    (await PostDispute disputeAnswer ;;
     update (setStatus (Some st_disputed)) ;;
     update (setShowDisputeMenu false))
    (fun message => emit (Alert (messageOr message "Failed to open dispute"))).

(** ** Countdown *)

(** The double nearest to an integer: the integer itself up to 2^53 in
    magnitude; beyond, the integer rounded to 53 significant bits, a tie
    going to the even significand. *)
Definition roundToDouble (d : Z) : Z :=
  let a := Z.abs d in
  if (a <=? 9007199254740992)%Z then d
  else
    let e := (Z.log2 a - 52)%Z in
    let q := (a / 2 ^ e)%Z in
    let r := (a mod 2 ^ e)%Z in
    let half := (2 ^ (e - 1))%Z in
    let q' := if (half <? r)%Z || ((r =? half)%Z && Z.odd q)
              then (q + 1)%Z else q in
    (Z.sgn d * (q' * 2 ^ e))%Z.

(** [a - b] and [Math.max(a, b)] on [NaN] and on doubles that hold integers
    (time values, which are at most 8.64e15 in magnitude, and their
    differences): the difference is the double nearest to the exact one. *)
Definition jsSub (a b : JsNumber) : JsNumber :=
  match a, b with
  | Num x, Num y => Num (roundToDouble (x - y))
  | _, _ => NaN
  end.

Definition Math_max (a b : JsNumber) : JsNumber :=
  match a, b with
  | Num x, Num y => Num (Z.max x y)
  | _, _ => NaN
  end.

(** [x === 0]. *)
Definition isZero (x : JsNumber) : bool :=
  match x with
  | Num z => (z =? 0)%Z
  | NaN => false
  end.

(** [Math.max(0, due - now)], with [now] the current time value and [due]
    the time value of [challenge.dueDate] ([NaN] for an invalid date). *)
Definition remaining (now : Z) (due : JsNumber) : JsNumber :=
  Math_max (Num 0) (jsSub due (Num now)).

(** One firing of the interval callback. *)
Definition countdownTick (now : Z) (due : JsNumber) : M unit :=
  let remaining := remaining now due in
  update (setCountdownTime (Some remaining)) ;;
  if isZero remaining then emit ClearInterval else ret tt.

(** The decimal numeral of an integer, as template literals print it. *)
Definition numberToString (z : Z) : string :=
  NilZero.string_of_int (Z.to_int z).

(** [formatCountdown(ms)]; [Math.floor(x / k)] on non-negative integers is
    the integer quotient. *)
Definition formatCountdown (ms : option JsNumber) : string :=
  match ms with
  | None => "Expired"
  | Some NaN => "NaNh NaNm NaNs"
  | Some (Num ms) =>
      if (ms <=? 0)%Z then "Expired"
      else
        let totalSeconds := (ms / 1000)%Z in
        let hours := (totalSeconds / 3600)%Z in
        let minutes := ((totalSeconds mod 3600) / 60)%Z in
        let seconds := (totalSeconds mod 60)%Z in
        numberToString hours ++ "h " ++ numberToString minutes ++ "m "
          ++ numberToString seconds ++ "s"
  end.

(** ** Derived flags and the rendered controls *)

(** [Object.keys(votes).length === 2]. *)
Definition bothVoted (s : PanelState) : bool :=
  (List.length (JsObject.keys (votes s)) =? 2)%nat.

(** [Object.values(votes).every(v => v.choice === Object.values(votes)[0].choice)];
    the callback, and with it the read of element 0, runs once per element. *)
Definition everyChoiceIsFirst (vs : list Vote) : bool :=
  match vs with
  | [] => true
  | v0 :: _ => forallb (fun v => Choice_eqb (choice v) (choice v0)) vs
  end.

(** [bothVoted && Object.values(votes).every(..)]. *)
Definition votesMatch (s : PanelState) : bool :=
  bothVoted s && everyChoiceIsFirst (JsObject.values (votes s)).

(** The two badges of the header. *)
Inductive HeaderBadge : Type :=
  | BadgeReleased
  | BadgeDisputed.

(** The line under "Vote Status" once both have voted:
    "Votes Match - Funds Released" or "Votes Disagree - Dispute Opened". *)
Inductive VoteResult : Type :=
  | VotesMatchFundsReleased
  | VotesDisagreeDisputeOpened.

(** The "Vote Mismatch" box: the chevron that unfolds it, and, unfolded, the
    "Open Dispute" button with its [disabled] flag. *)
Record DisputeMenu : Type := mkDisputeMenu {
  chevronButton : bool;
  openDisputeButton : option bool
}.

(** What the render tree shows of the settlement: a control that is not
    rendered is [None] (or [false]), a rendered button carries its
    [disabled] flag. *)
Record View : Type := mkView {
  headerBadges : list HeaderBadge;
  countdownText : string;
  proofTiles : list Proof;
  uploadDisabled : bool;
  voteButtonsDisabled : option bool;
  voteResult : option VoteResult;
  disputeMenu : option DisputeMenu;
  autoReleaseInfo : bool
}.

Definition render (s : PanelState) : View :=
  mkView
    ((if status_is (status s) st_auto_released then [BadgeReleased] else [])
       ++ (if status_is (status s) st_disputed then [BadgeDisputed] else []))
    (formatCountdown (countdownTime s))
    (proofs s)
    (uploading s || status_is (status s) st_released
       || status_is (status s) st_disputed)
    (match selectedProof s with
     | Some _ =>
         Some (false || status_is (status s) st_released
                 || status_is (status s) st_disputed)
     | None => None
     end)
    (if bothVoted s
     then Some (if votesMatch s then VotesMatchFundsReleased
                else VotesDisagreeDisputeOpened)
     else None)
    (if bothVoted s && negb (votesMatch s)
     then Some (mkDisputeMenu
                  (negb (showDisputeMenu s))
                  (if showDisputeMenu s
                   then Some (status_is (status s) st_disputed)
                   else None))
     else None)
    (votesMatch s).

(** ** The panel as a transition system *)

(** What can happen to a mounted panel: the two fetches of the mount effect,
    a timer tick, and the user's clicks together with what the environment
    then answers. A click on a control that is not rendered or is disabled
    does nothing. Each handler runs to completion with its answers: the
    awaits of different handlers are not interleaved. The props of the
    panel are fixed here; a change of [challengeId] is an event of
    [MountedEvent] below. *)
Inductive Event : Type :=
  | EvFetchProofs (answer : FetchAnswer (option (list Proof)))
  | EvFetchVotes (answer : FetchAnswer (list Vote))
  | EvTick (now : Z) (due : JsNumber)
  | EvSelectProof (tile : nat)
  | EvUpload (file : list byte)
             (uploadAnswer : FetchAnswer UploadJson)
             (digestAnswer : Completion (list byte))
             (registerAnswer : Completion Proof)
             (proofsAnswer : FetchAnswer (option (list Proof)))
  | EvProgressReset
  | EvVote (choice : Choice)
           (voteAnswer : Completion unit)
           (votesAnswer : FetchAnswer (list Vote))
  | EvShowDisputeMenu
  | EvOpenDispute (disputeAnswer : Completion unit).

Definition step (e : Event) : M unit :=
  fun s =>
    let v := render s in
    match e with
    | EvFetchProofs answer => fetchProofs answer s
    | EvFetchVotes answer => fetchVotes answer s
    | EvTick now due => countdownTick now due s
    | EvSelectProof tile =>
        match nth_error (proofTiles v) tile with
        | Some p => update (setSelectedProof (Some p)) s
        | None => ret tt s
        end
    | EvUpload file uploadAnswer digestAnswer registerAnswer proofsAnswer =>
        if uploadDisabled v then ret tt s
        else handleFile file uploadAnswer digestAnswer registerAnswer proofsAnswer s
    | EvProgressReset => update (setProgress 0) s
    | EvVote choice voteAnswer votesAnswer =>
        match voteButtonsDisabled v with
        | Some false => handleVote choice voteAnswer votesAnswer s
        | _ => ret tt s
        end
    | EvShowDisputeMenu =>
        match disputeMenu v with
        | Some menu =>
            if chevronButton menu then update (setShowDisputeMenu true) s
            else ret tt s
        | None => ret tt s
        end
    | EvOpenDispute disputeAnswer =>
        match disputeMenu v with
        | Some menu =>
            match openDisputeButton menu with
            | Some false => handleOpenDispute disputeAnswer s
            | _ => ret tt s
            end
        | None => ret tt s
        end
    end.

(** The state and the log after a sequence of events, oldest first. *)
Fixpoint run (es : list Event) (s : PanelState) : PanelState * list Effect :=
  match es with
  | [] => (s, [])
  | e :: rest =>
      let r := step e s in
      let r' := run rest (stateOf r) in
      (fst r', logOf r ++ snd r')
  end.

(** ** Vocabulary of the statements *)

(** The object holds exactly two votes and their choices are equal. *)
Definition TwoEqualVotes (o : JsObject.t Vote) : Prop :=
  List.length o = 2%nat /\
  exists v1 v2 : Vote,
    JsObject.values o = [v1; v2] /\ choice v1 = choice v2.

(** The object holds exactly two votes and their choices differ. *)
Definition TwoDifferingVotes (o : JsObject.t Vote) : Prop :=
  List.length o = 2%nat /\
  exists v1 v2 : Vote,
    JsObject.values o = [v1; v2] /\ choice v1 <> choice v2.

(** The proofs that the server delivers to the panel during an event: a
    fetched proof list, or, when an upload runs and gets as far as the
    registration, the registered proof and the list fetched after it. *)
Definition answeredProofs (e : Event) (s : PanelState) : list Proof :=
  match e with
  | EvFetchProofs (FetchOk data) => orEmpty data
  | EvUpload _ (FetchOk _) (Normal _) (Normal proof) proofsAnswer =>
      if uploadDisabled (render s) then []
      else proof :: match proofsAnswer with
                    | FetchOk data => orEmpty data
                    | _ => []
                    end
  | _ => []
  end.

(** The proofs delivered during a run that starts in [s]. *)
Fixpoint allAnsweredProofs (es : list Event) (s : PanelState) : list Proof :=
  match es with
  | [] => []
  | e :: rest =>
      answeredProofs e s ++ allAnsweredProofs rest (stateOf (step e s))
  end.

(** A character of [0-9a-f]. *)
Definition isLowerHex (c : ascii) : bool :=
  let n := N_of_ascii c in
  (((48 <=? n) && (n <=? 57)) || ((97 <=? n) && (n <=? 102)))%N.

Fixpoint allChars (p : ascii -> bool) (s : string) : bool :=
  match s with
  | EmptyString => true
  | String c rest => p c && allChars p rest
  end.

Fixpoint containsChar (c : ascii) (s : string) : bool :=
  match s with
  | EmptyString => false
  | String c' rest => Ascii.eqb c c' || containsChar c rest
  end.

(** The panel makes its user's vote write-once: once [myVote] holds the
    accepted choice, a further click on a vote button sends no vote and
    leaves that choice in place, whatever the server would answer. *)
Definition VoteIsWriteOnce : Prop :=
  forall (s : PanelState) (first next : Choice)
         (voteAnswer : Completion unit) (votesAnswer : FetchAnswer (list Vote)),
    myVote s = Some first ->
    (forall h, ~ In (PostVote next h)
                    (logOf (step (EvVote next voteAnswer votesAnswer) s)))
    /\ myVote (stateOf (step (EvVote next voteAnswer votesAnswer) s))
       = Some first.

(** The panel shows or requests a dispute. *)
Definition DisputeRaised (r : Completion unit * PanelState * list Effect) : Prop :=
  status (stateOf r) = Some st_disputed
  \/ In PostDispute (logOf r)
  \/ voteResult (render (stateOf r)) = Some VotesDisagreeDisputeOpened
  \/ disputeMenu (render (stateOf r)) <> None.

(** A tick that finds the deadline elapsed while fewer than two votes are
    held raises a dispute. *)
Definition ExpiryRaisesDispute : Prop :=
  forall (now : Z) (due : JsNumber) (s : PanelState),
    isZero (remaining now due) = true ->
    List.length (votes s) < 2 ->
    DisputeRaised (step (EvTick now due) s).

(** The clicks that open a dispute: unfold the box, press "Open Dispute";
    the server accepts. *)
Definition openDisputeClicks : list Event :=
  [EvShowDisputeMenu; EvOpenDispute (Normal tt)].

(** Before any terminal status, the user can open a dispute whatever the
    votes are. *)
Definition DisputeAlwaysAvailable : Prop :=
  forall s : PanelState,
    status s <> Some st_auto_released ->
    status s <> Some st_released ->
    status s <> Some st_disputed ->
    status (fst (run openDisputeClicks s)) = Some st_disputed.


(** A time value: what [getTime()] returns for a valid date. *)
Definition isTimeValue (t : Z) : Prop :=
  (Z.abs t <= 8640000000000000)%Z.

(** The remaining time computed by a tick is exactly [max(0, dueAt - now)],
    for all time values. *)
Definition RemainingIsExactDifference : Prop :=
  forall now dueAt : Z,
    isTimeValue now -> isTimeValue dueAt ->
    remaining now (Num dueAt) = Num (Z.max 0 (dueAt - now)).

(** ** Sample runs *)

Module Samples.

Definition proofA : Proof :=
  mkProof 1 "/uploads/a.png"
          "9f86d081884c7d659a2feaa0c55ad015a3bf4f1b2b0b822cd15d6c15b0f00a08"
          (Some "u1") None.

Definition voteOf (u : string) (c : Choice) : Vote :=
  mkVote u c "2024-05-01T10:00:00.000Z".

(** The proofs arrive and the user picks the first tile. *)
Definition proofSelected : list Event :=
  [EvFetchProofs (FetchOk (Some [proofA])); EvSelectProof 0].

(** Then the user votes "challenger"; the server holds that one vote. *)
Definition firstVote : Event :=
  EvVote challenger (Normal tt) (FetchOk [voteOf "u1" challenger]).

Definition votedOnce : list Event := proofSelected ++ [firstVote].

(** The user's second attempt, with the other choice, which the server
    accepts. *)
Definition secondVote : Event :=
  EvVote challenged (Normal tt) (FetchOk [voteOf "u1" challenged]).

(** The user votes "challenger" and the server then holds two votes for
    "challenger". *)
Definition agreeingVote : Event :=
  EvVote challenger (Normal tt)
         (FetchOk [voteOf "u1" challenger; voteOf "u2" challenger]).

(** The user votes "challenger" and the server then holds that vote and the
    opponent's vote for "challenged". *)
Definition disagreeingVote : Event :=
  EvVote challenger (Normal tt)
         (FetchOk [voteOf "u1" challenger; voteOf "u2" challenged]).

(** Both participants voted "challenger". *)
Definition bothAgree : list Event := proofSelected ++ [agreeingVote].

(** Both participants voted, with different choices, and the user unfolds
    the dispute box. *)
Definition bothDisagree : list Event :=
  proofSelected ++ [disagreeingVote; EvShowDisputeMenu].



Definition afterProofSelected : PanelState := fst (run proofSelected initialState).
Definition afterVotedOnce : PanelState := fst (run votedOnce initialState).
Definition afterBothAgree : PanelState := fst (run bothAgree initialState).
Definition afterBothDisagree : PanelState := fst (run bothDisagree initialState).

(** A 32-byte digest answer. *)
Definition digestA : list byte :=
  [x9f; x86; xd0; x81; x88; x4c; x7d; x65; x9a; x2f; xea; xa0; xc5; x5a;
   xd0; x15; xa3; xbf; x4f; x1b; x2b; x0b; x82; x2c; xd1; x5d; x6c; x15;
   xb0; xf0; x0a; x08].

(** An upload that goes through. *)
Definition uploadOk : Event :=
  EvUpload [x74; x65; x73; x74]
           (FetchOk (mkUploadJson "/uploads/a.png"))
           (Normal digestA)
           (Normal proofA)
           (FetchOk (Some [proofA])).

End Samples.

(** ** Further vocabulary *)

(** The own property [k] of an object, if it has one. *)
Fixpoint ownProperty {V : Type} (k : string) (o : JsObject.t V) : option V :=
  match o with
  | [] => None
  | (k', v) :: rest => if String.eqb k k' then Some v else ownProperty k rest
  end.

(** The last vote of user [u] in an answered list. *)
Fixpoint lastVoteOf (u : string) (data : list Vote) : option Vote :=
  match data with
  | [] => None
  | v :: rest =>
      match lastVoteOf u rest with
      | Some w => Some w
      | None => if String.eqb u (userId v) then Some v else None
      end
  end.

(** The object holds at most one vote per user: its keys are pairwise
    distinct, each is the [userId] of its vote, and none is ["__proto__"]. *)
Definition WellKeyed (o : JsObject.t Vote) : Prop :=
  NoDup (map fst o)
  /\ forall k v, In (k, v) o -> userId v = k /\ k <> "__proto__".

(** Reading a hexadecimal digit of [0-9a-f], and a string of such digits two
    by two, high digit first. *)
Definition hexValue (c : ascii) : option N :=
  let n := N_of_ascii c in
  if ((48 <=? n) && (n <=? 57))%N then Some (n - 48)%N
  else if ((97 <=? n) && (n <=? 102))%N then Some (n - 87)%N
  else None.

Fixpoint hexDecode (s : string) : option (list byte) :=
  match s with
  | EmptyString => Some []
  | String hi (String lo rest) =>
      match hexValue hi, hexValue lo, hexDecode rest with
      | Some h, Some l, Some bytes =>
          match Byte.of_N (16 * h + l) with
          | Some b => Some (b :: bytes)
          | None => None
          end
      | _, _, _ => None
      end
  | String _ EmptyString => None
  end.

(** [input.onchange] of [openFilePicker()]: [input.files] is absent, empty,
    or a list of chosen files, of which the first is handled. *)
Definition openFilePicker (files : option (list (list byte)))
    (uploadAnswer : FetchAnswer UploadJson)
    (digestAnswer : Completion (list byte))
    (registerAnswer : Completion Proof)
    (proofsAnswer : FetchAnswer (option (list Proof))) : M unit :=
  match files with
  | None => ret tt
  | Some [] => ret tt
  | Some (file :: _) =>
      handleFile file uploadAnswer digestAnswer registerAnswer proofsAnswer
  end.

(** ** The panel under a changing challenge *)











(** ** The accept dialog *)

(** The logic of the [AcceptChallengeModal] component: its one state cell
    [error], the confirm handler, and what it renders. *)
Module AcceptChallengeModal.

(** The callbacks the dialog invokes and the toast it raises. *)
Inductive Effect : Type :=
  | CallOnAccept
  | CallOnClose
  | Toast (title description variant : string).

(** [challenge.challengerUser], as far as the dialog reads it; an absent,
    [null] or empty field is falsy. *)
Record User : Type := mkUser {
  firstName : option string;
  username : option string;
  profileImageUrl : option string
}.

Record Challenge : Type := mkChallenge {
  title : string;
  challengerUser : option User
}.

(** The props; [onAccept] is optional, [isSubmitting] defaults to [false]. *)
Record Props : Type := mkProps {
  isOpen : bool;
  challenge : option Challenge;
  hasOnAccept : bool;
  isSubmitting : bool
}.

(** [x || fallback] for a string that may be absent. *)
Definition orElse (x : option string) (fallback : string) : string :=
  messageOr x fallback.

(** [x] is truthy. *)
Definition truthy (x : option string) : bool :=
  match x with
  | Some s => negb (String.eqb s "")
  | None => false
  end.

(** [challenger?.field]. *)
Definition field (challenger : option User) (f : User -> option string)
  : option string :=
  match challenger with
  | Some u => f u
  | None => None
  end.

(** [challenger?.firstName || challenger?.username || 'another user']. *)
Definition challengerName (challenger : option User) : string :=
  orElse (field challenger firstName)
         (orElse (field challenger username) "another user").

(** The [catch] block of [handleConfirm]. *)
Definition confirmFailed (message : option string) : option string * list Effect :=
  (Some (orElse message "Failed to accept challenge"),
   [Toast "Error" (orElse message "Failed to accept challenge") "destructive"]).

(** [handleConfirm()]: the new value of [error] and what was invoked. The
    answers are those of [await onAccept()] and of [onClose()]. *)
Definition handleConfirm (hasOnAccept : bool)
    (acceptAnswer closeAnswer : Completion unit)
    (error : option string) : option string * list Effect :=
  let called := if hasOnAccept then [CallOnAccept] else [] in
  match (if hasOnAccept then acceptAnswer else Normal tt) with
  | Throw message =>
      (fst (confirmFailed message), called ++ snd (confirmFailed message))
  | Normal _ =>
      match closeAnswer with
      | Normal _ => (None, called ++ [CallOnClose])
      | Throw message =>
          (fst (confirmFailed message),
           called ++ CallOnClose :: snd (confirmFailed message))
      end
  end.

(** [onOpenChange(open)] of the dialog. *)
Definition onOpenChange (open : bool) (error : option string)
  : option string * list Effect :=
  if negb open then (None, [CallOnClose]) else (error, []).

(** What is rendered: nothing without a challenge; otherwise the dialog with
    its open flag, the avatar image (source and alt text) when the
    challenger has one, the heading, the name in the caption, the error line
    and the two buttons. *)
Record View : Type := mkView {
  dialogOpen : bool;
  avatarImage : option (string * string);
  heading : string;
  captionName : string;
  errorLine : option string;
  cancelDisabled : bool;
  confirmDisabled : bool;
  confirmLabel : string
}.

Definition render (p : Props) (error : option string) : option View :=
  match challenge p with
  | None => None
  | Some ch =>
      let challenger := challengerUser ch in
      Some (mkView
              (isOpen p)
              (if truthy (field challenger profileImageUrl)
               then Some (orElse (field challenger profileImageUrl) "",
                          orElse (field challenger firstName) "Challenger")
               else None)
              (title ch)
              (challengerName challenger)
              (if truthy error then error else None)
              (isSubmitting p)
              (isSubmitting p)
              (if isSubmitting p then "Accepting..." else "Accept & Stake"))
  end.

(** What the user can do to a dialog: press "Accept & Stake", press
    "Cancel" (whose handler is [onClose] itself), or dismiss or reopen the
    dialog. A button that is not rendered, not shown or disabled does
    nothing. *)
Inductive Event : Type :=
  | ClickConfirm (acceptAnswer closeAnswer : Completion unit)
  | ClickCancel
  | OpenChange (open : bool).

Definition step (p : Props) (e : Event) (error : option string)
  : option string * list Effect :=
  match render p error with
  | None => (error, [])
  | Some v =>
      if negb (dialogOpen v) then (error, [])
      else
        match e with
        | ClickConfirm acceptAnswer closeAnswer =>
            if confirmDisabled v then (error, [])
            else handleConfirm (hasOnAccept p) acceptAnswer closeAnswer error
        | ClickCancel =>
            if cancelDisabled v then (error, []) else (error, [CallOnClose])
        | OpenChange open => onOpenChange open error
        end
  end.

End AcceptChallengeModal.

(** ** Facts about the dictionary model *)

Module JsObjectFacts.
Import JsObject.

Section WithValues.
Context {V : Type}.

Lemma insert_by_index_perm (e : N * (string * V)) l :
  Permutation (insert_by_index e l) (e :: l).
Proof.
  induction l as [|e' l IH]; simpl.
  - apply Permutation_refl.
  - destruct (fst e <=? fst e')%N.
    + apply Permutation_refl.
    + eapply perm_trans; [apply perm_skip, IH | apply perm_swap].
Qed.

Lemma sort_by_index_perm (l : list (N * (string * V))) :
  Permutation (sort_by_index l) l.
Proof.
  induction l as [|e l IH]; simpl.
  - apply perm_nil.
  - eapply perm_trans; [apply insert_by_index_perm | apply perm_skip, IH].
Qed.

Lemma split_by_index_perm (o : t V) :
  Permutation (map snd (index_entries o) ++ named_entries o) o.
Proof.
  induction o as [|[k v] o IH]; simpl.
  - apply perm_nil.
  - destruct (array_index k); simpl.
    + apply perm_skip, IH.
    + eapply perm_trans; [apply Permutation_sym, Permutation_middle |].
      apply perm_skip, IH.
Qed.

(** Enumeration visits every own property exactly once. *)
Lemma entries_perm (o : t V) : Permutation (entries o) o.
Proof.
  unfold entries.
  eapply perm_trans; [| apply split_by_index_perm].
  apply Permutation_app_tail, Permutation_map, sort_by_index_perm.
Qed.

Lemma entries_length (o : t V) : List.length (entries o) = List.length o.
Proof. apply Permutation_length, entries_perm. Qed.

Lemma keys_length (o : t V) : List.length (keys o) = List.length o.
Proof. unfold keys. rewrite length_map. apply entries_length. Qed.

Lemma values_length (o : t V) : List.length (values o) = List.length o.
Proof. unfold values. rewrite length_map. apply entries_length. Qed.

(** Every enumerated value is the value of an own property. *)
Lemma values_in (o : t V) (v : V) :
  In v (values o) -> exists k, In (k, v) o.
Proof.
  unfold values. intros H. apply in_map_iff in H.
  destruct H as [[k v'] [Hv Hin]]. simpl in Hv. subst v'.
  exists k. eapply Permutation_in; [apply entries_perm | exact Hin].
Qed.

End WithValues.
End JsObjectFacts.

(** ** Facts about choices and the agreement tests *)

Lemma Choice_eqb_eq (a b : Choice) : Choice_eqb a b = true <-> a = b.
Proof. destruct a, b; simpl; split; congruence. Qed.

Lemma Choice_eqb_refl (a : Choice) : Choice_eqb a a = true.
Proof. destruct a; reflexivity. Qed.

Lemma Choice_eqb_neq (a b : Choice) : Choice_eqb a b = false <-> a <> b.
Proof. destruct a, b; simpl; split; congruence. Qed.

Lemma autoReleaseCheck_values (o : JsObject.t Vote) :
  autoReleaseCheck o = true <->
  exists v1 v2, JsObject.values o = [v1; v2] /\ choice v1 = choice v2.
Proof.
  unfold autoReleaseCheck.
  rewrite JsObjectFacts.keys_length, <- (JsObjectFacts.values_length o).
  destruct (JsObject.values o) as [|v1 [|v2 [|v3 vs]]]; simpl.
  - split; [discriminate | intros (? & ? & H & _); discriminate].
  - split; [discriminate | intros (? & ? & H & _); discriminate].
  - rewrite Choice_eqb_eq. split.
    + intros H. exists v1, v2. auto.
    + intros (a & b & H & Heq). injection H as -> ->. exact Heq.
  - split; [discriminate | intros (? & ? & H & _); discriminate].
Qed.

Lemma autoReleaseCheck_TwoEqualVotes (o : JsObject.t Vote) :
  autoReleaseCheck o = true <-> TwoEqualVotes o.
Proof.
  rewrite autoReleaseCheck_values. unfold TwoEqualVotes. split.
  - intros (v1 & v2 & Hv & Heq). split.
    + rewrite <- JsObjectFacts.values_length, Hv. reflexivity.
    + exists v1, v2. auto.
  - intros [_ H]. exact H.
Qed.

Lemma TwoDifferingVotes_not_equal (o : JsObject.t Vote) :
  TwoDifferingVotes o -> autoReleaseCheck o = false.
Proof.
  intros [_ (v1 & v2 & Hv & Hne)].
  destruct (autoReleaseCheck o) eqn:E; [| reflexivity].
  apply autoReleaseCheck_values in E.
  destruct E as (a & b & Hab & Heq). rewrite Hv in Hab.
  injection Hab as <- <-. contradiction.
Qed.

(** The test of [fetchVotes] and the derived flag agree on every object. *)
Lemma autoReleaseCheck_votesMatch (s : PanelState) :
  autoReleaseCheck (votes s) = votesMatch s.
Proof.
  unfold autoReleaseCheck, votesMatch, bothVoted.
  rewrite JsObjectFacts.keys_length, <- (JsObjectFacts.values_length (votes s)).
  destruct (JsObject.values (votes s)) as [|v1 [|v2 [|v3 vs]]]; simpl;
    try reflexivity.
  rewrite Choice_eqb_refl. simpl.
  rewrite andb_true_r.
  destruct (choice v1), (choice v2); reflexivity.
Qed.

(** ** Facts about the handlers *)

Lemma fetchProofs_run answer s :
  fetchProofs answer s =
  match answer with
  | FetchThrows => (Normal tt, s, [GetProofs; ConsoleError "Error fetching proofs:"])
  | FetchNotOk => (Normal tt, s, [GetProofs])
  | FetchOk data => (Normal tt, setProofs (orEmpty data) s, [GetProofs])
  end.
Proof. destruct answer; reflexivity. Qed.

Lemma fetchVotes_run answer s :
  fetchVotes answer s =
  match answer with
  | FetchThrows => (Normal tt, s, [GetVotes; ConsoleError "Error fetching votes:"])
  | FetchNotOk => (Normal tt, s, [GetVotes])
  | FetchOk data =>
      (Normal tt,
       if autoReleaseCheck (buildVoteMap data)
       then setStatus (Some st_auto_released) (setVotes (buildVoteMap data) s)
       else setVotes (buildVoteMap data) s,
       [GetVotes])
  end.
Proof.
  destruct answer; try reflexivity.
  unfold fetchVotes, tryCatch, bind, fetch, await. simpl.
  destruct (autoReleaseCheck (buildVoteMap json)); reflexivity.
Qed.

(** When [fetchVotes] leaves the status at ['auto-released'], either it was
    there before or the votes now held passed the test. *)
Lemma fetchVotes_auto_released answer s :
  status (stateOf (fetchVotes answer s)) = Some st_auto_released ->
  status s = Some st_auto_released \/
  autoReleaseCheck (votes (stateOf (fetchVotes answer s))) = true.
Proof.
  rewrite fetchVotes_run. destruct answer; simpl; auto.
  destruct (autoReleaseCheck (buildVoteMap json)) eqn:E; simpl; auto.
Qed.

Lemma handleVote_run c voteAnswer votesAnswer s :
  handleVote c voteAnswer votesAnswer s =
  match selectedProof s with
  | None => (Normal tt, s, [Alert "Please select a proof first"])
  | Some p =>
      match voteAnswer with
      | Normal _ =>
          (Normal tt,
           stateOf (fetchVotes votesAnswer (setMyVote (Some c) s)),
           PostVote c (proof_hash p)
             :: logOf (fetchVotes votesAnswer (setMyVote (Some c) s)))
      | Throw _ =>
          (Normal tt, s,
           [PostVote c (proof_hash p); ConsoleError "Error voting:";
            Alert "Vote failed"])
      end
  end.
Proof.
  unfold handleVote, bind, get. simpl.
  destruct (selectedProof s) as [p|]; [| reflexivity].
  destruct voteAnswer as [[]|msg]; [| reflexivity].
  unfold tryCatch, bind, await, update. simpl.
  rewrite fetchVotes_run.
  destruct votesAnswer; reflexivity.
Qed.

Lemma handleOpenDispute_run disputeAnswer s :
  handleOpenDispute disputeAnswer s =
  match disputeAnswer with
  | Normal _ =>
      (Normal tt, setShowDisputeMenu false (setStatus (Some st_disputed) s),
       [PostDispute])
  | Throw message =>
      (Normal tt, s,
       [PostDispute; Alert (messageOr message "Failed to open dispute")])
  end.
Proof. destruct disputeAnswer as [[]|msg]; reflexivity. Qed.

(** [handleFile] ends with the status at ['voting'] or [null], and selects
    nothing but the proof that the registration answered. *)
Lemma handleFile_end file uploadAnswer digestAnswer registerAnswer proofsAnswer s :
  let s' := stateOf (handleFile file uploadAnswer digestAnswer registerAnswer
                                proofsAnswer s) in
  (status s' = None /\ selectedProof s' = selectedProof s /\ proofs s' = proofs s)
  \/ (exists uploadJson hashArray proof,
        uploadAnswer = FetchOk uploadJson /\
        digestAnswer = Normal hashArray /\
        registerAnswer = Normal proof /\
        status s' = Some st_voting /\
        selectedProof s' = Some proof /\
        (proofs s' = proofs s /\ (forall data, proofsAnswer <> FetchOk data)
         \/ exists data, proofsAnswer = FetchOk data /\ proofs s' = orEmpty data)).
Proof.
  destruct uploadAnswer as [| |uploadJson]; simpl; auto.
  destruct digestAnswer as [hashArray|]; simpl; auto.
  destruct registerAnswer as [proof|]; simpl; auto.
  right. exists uploadJson, hashArray, proof.
  destruct proofsAnswer as [| |data]; simpl; repeat split; auto.
  - left. split; [reflexivity | discriminate].
  - left. split; [reflexivity | discriminate].
  - right. exists data. auto.
Qed.

Lemma handleFile_votes file uploadAnswer digestAnswer registerAnswer proofsAnswer s :
  votes (stateOf (handleFile file uploadAnswer digestAnswer registerAnswer
                             proofsAnswer s)) = votes s.
Proof.
  destruct uploadAnswer as [| |uploadJson]; simpl; auto.
  destruct digestAnswer as [hashArray|]; simpl; auto.
  destruct registerAnswer as [proof|]; simpl; auto.
  destruct proofsAnswer as [| |data]; reflexivity.
Qed.

Lemma countdownTick_run now due s :
  countdownTick now due s =
  (Normal tt, setCountdownTime (Some (remaining now due)) s,
   if isZero (remaining now due) then [ClearInterval] else []).
Proof.
  unfold countdownTick, bind, update. simpl.
  destruct (isZero (remaining now due)); reflexivity.
Qed.

(** No event brings the status to ['auto-released'] unless the votes held
    afterwards pass the agreement test. *)
Lemma step_auto_released e s :
  status (stateOf (step e s)) = Some st_auto_released ->
  status s = Some st_auto_released \/
  autoReleaseCheck (votes (stateOf (step e s))) = true.
Proof.
  destruct e; unfold step.
  - rewrite fetchProofs_run. destruct answer; simpl; auto.
  - apply fetchVotes_auto_released.
  - rewrite countdownTick_run. simpl. auto.
  - destruct (nth_error _ _); simpl; auto.
  - destruct (uploadDisabled (render s)); simpl; auto.
    intros H.
    destruct (handleFile_end file uploadAnswer digestAnswer registerAnswer
                proofsAnswer s) as [[Hs _] | (j & a & p & _ & _ & _ & Hs & _)];
      rewrite Hs in H; discriminate.
  - simpl. auto.
  - destruct (voteButtonsDisabled (render s)) as [[|]|]; simpl; auto.
    rewrite handleVote_run.
    destruct (selectedProof s); simpl; auto.
    destruct voteAnswer; simpl; auto.
    intros H. apply fetchVotes_auto_released in H. simpl in H. exact H.
  - destruct (disputeMenu (render s)) as [menu|]; simpl; auto.
    destruct (chevronButton menu); simpl; auto.
  - destruct (disputeMenu (render s)) as [menu|]; simpl; auto.
    destruct (openDisputeButton menu) as [[|]|]; simpl; auto.
    rewrite handleOpenDispute_run.
    destruct disputeAnswer; simpl; auto. discriminate.
Qed.

(** ** Settlement by agreement *)

(** C1 — Unanimity. Whatever happens to the panel, the status becomes
    ['auto-released'] only if the votes then held are exactly two and have
    equal choice; with fewer than two votes, or with two votes of unequal
    choice, the event does not produce ['auto-released']. *)
Theorem auto_release_only_on_two_equal_votes (e : Event) (s : PanelState) :
  status s <> Some st_auto_released ->
  (status (stateOf (step e s)) = Some st_auto_released ->
   TwoEqualVotes (votes (stateOf (step e s))))
  /\ (List.length (votes (stateOf (step e s))) < 2 ->
      status (stateOf (step e s)) <> Some st_auto_released)
  /\ (TwoDifferingVotes (votes (stateOf (step e s))) ->
      status (stateOf (step e s)) <> Some st_auto_released).
Proof.
  intros Hs.
  assert (Hmain : status (stateOf (step e s)) = Some st_auto_released ->
                  TwoEqualVotes (votes (stateOf (step e s)))).
  { intros H. apply step_auto_released in H.
    destruct H as [H | H]; [contradiction |].
    apply autoReleaseCheck_TwoEqualVotes, H. }
  split; [exact Hmain |]. split.
  - intros Hlen H. destruct (Hmain H) as [Hl _]. lia.
  - intros Hd H. apply TwoDifferingVotes_not_equal in Hd.
    apply Hmain, autoReleaseCheck_TwoEqualVotes in H. congruence.
Qed.

Lemma auto_release_only_on_two_equal_votes_witness :
  status Samples.afterProofSelected <> Some st_auto_released
  /\ status (stateOf (step Samples.agreeingVote Samples.afterProofSelected))
     = Some st_auto_released
  /\ TwoEqualVotes
       (votes (stateOf (step Samples.agreeingVote Samples.afterProofSelected))).
Proof.
  assert (H0 : status Samples.afterProofSelected <> Some st_auto_released)
    by (vm_compute; discriminate).
  split; [exact H0 |]. split; [reflexivity |].
  apply (proj1 (auto_release_only_on_two_equal_votes
                  Samples.agreeingVote Samples.afterProofSelected H0)).
  reflexivity.
Defined.

(** C10 — The two agreement tests coincide. For every vote mapping, the
    test under which [fetchVotes] sets ['auto-released'] holds exactly when
    the derived flag [votesMatch] holds in the state that [setVotes] leaves,
    and both say that the mapping has exactly two entries of equal choice. *)
Theorem agreement_tests_equivalent (voteMap : JsObject.t Vote) (s : PanelState) :
  (autoReleaseCheck voteMap = true <-> votesMatch (setVotes voteMap s) = true)
  /\ (votesMatch (setVotes voteMap s) = true <-> TwoEqualVotes voteMap).
Proof.
  rewrite <- autoReleaseCheck_votesMatch. simpl. split.
  - reflexivity.
  - apply autoReleaseCheck_TwoEqualVotes.
Qed.

(** ** Strings *)

Lemma string_length_app (a b : string) :
  String.length (a ++ b) = String.length a + String.length b.
Proof. induction a as [|c a IH]; simpl; [reflexivity | now rewrite IH]. Qed.

Lemma allChars_app (p : ascii -> bool) (a b : string) :
  allChars p (a ++ b) = allChars p a && allChars p b.
Proof.
  induction a as [|c a IH]; simpl; [reflexivity |].
  rewrite IH. apply andb_assoc.
Qed.

Lemma containsChar_app (c : ascii) (a b : string) :
  containsChar c (a ++ b) = containsChar c a || containsChar c b.
Proof.
  induction a as [|c' a IH]; simpl; [reflexivity |].
  rewrite IH. apply orb_assoc.
Qed.

(** A countdown that is not over never reads "Expired". *)
Lemma formatCountdown_running (ms : Z) :
  (0 < ms)%Z -> formatCountdown (Some (Num ms)) <> "Expired".
Proof.
  intros Hpos H. unfold formatCountdown in H.
  destruct (ms <=? 0)%Z eqn:E; [apply Z.leb_le in E; lia |].
  apply (f_equal (containsChar " ")) in H.
  rewrite containsChar_app in H.
  change (containsChar " " "Expired") with false in H.
  rewrite (containsChar_app _ "h ") in H. simpl in H.
  rewrite orb_true_r in H. discriminate.
Qed.

(** ** Countdown *)

Lemma roundToDouble_exact (d : Z) :
  (Z.abs d <= 9007199254740992)%Z -> roundToDouble d = d.
Proof.
  intros H. unfold roundToDouble.
  destruct (Z.abs d <=? 9007199254740992)%Z eqn:E; [reflexivity |].
  apply Z.leb_gt in E. lia.
Qed.

(** Rounding keeps the sign: a difference that is not positive does not
    become positive, and a positive one stays positive. *)
Lemma roundToDouble_sign (d : Z) :
  ((d <= 0)%Z -> (roundToDouble d <= 0)%Z)
  /\ ((0 < d)%Z -> (0 < roundToDouble d)%Z).
Proof.
  unfold roundToDouble.
  destruct (Z.abs d <=? 9007199254740992)%Z eqn:E; [split; intros; assumption |].
  apply Z.leb_gt in E.
  set (a := Z.abs d) in *.
  set (e := (Z.log2 a - 52)%Z).
  assert (Hlog : (53 <= Z.log2 a)%Z).
  { change 53%Z with (Z.log2 9007199254740992).
    apply Z.log2_le_mono. lia. }
  assert (He : (0 <= e)%Z) by (unfold e; lia).
  assert (Hpow : (0 < 2 ^ e)%Z) by (apply Z.pow_pos_nonneg; lia).
  assert (Hle : (2 ^ e <= a)%Z).
  { apply Z.le_trans with (2 ^ Z.log2 a)%Z.
    - apply Z.pow_le_mono_r; unfold e; lia.
    - apply Z.log2_spec. lia. }
  assert (Hq : (0 < a / 2 ^ e)%Z) by (apply Z.div_str_pos; lia).
  match goal with
  | |- context [if ?c then ?x else ?y] => set (q' := if c then x else y)
  end.
  assert (Hq' : (0 < q')%Z) by (unfold q'; destruct (_ || _); lia).
  assert (Hprod : (0 < q' * 2 ^ e)%Z) by (apply Z.mul_pos_pos; assumption).
  split; intros Hd.
  - assert (Hneg : (d < 0)%Z) by (unfold a in E; lia).
    rewrite (Z.sgn_neg d Hneg). lia.
  - rewrite (Z.sgn_pos d Hd). lia.
Qed.

Lemma remaining_value (now dueAt : Z) :
  remaining now (Num dueAt) = Num (Z.max 0 (roundToDouble (dueAt - now))).
Proof. reflexivity. Qed.

Lemma remaining_elapsed (now dueAt : Z) :
  (dueAt <= now)%Z -> remaining now (Num dueAt) = Num 0.
Proof.
  intros H. rewrite remaining_value. f_equal.
  destruct (roundToDouble_sign (dueAt - now)) as [Hneg _]. lia.
Qed.

Lemma isZero_remaining (now dueAt : Z) :
  isZero (remaining now (Num dueAt)) = (dueAt <=? now)%Z.
Proof.
  rewrite remaining_value. unfold isZero.
  destruct (roundToDouble_sign (dueAt - now)) as [Hneg Hpos].
  destruct (dueAt <=? now)%Z eqn:E.
  - apply Z.leb_le in E. apply Z.eqb_eq. lia.
  - apply Z.leb_gt in E. apply Z.eqb_neq. lia.
Qed.

(** C7, as stated, fails: the difference of two time values need not be a
    double. With the current time at 8639999999999999 ms before the epoch
    and the due time at the last valid time value, the exact difference
    17279999999999999 is stored as 17280000000000000. And before the first
    tick the panel reads "Expired" although no remaining time was computed
    and the deadline may be far away. *)
Lemma remaining_rounds_large_differences :
  isTimeValue (-8639999999999999)
  /\ isTimeValue 8640000000000000
  /\ remaining (-8639999999999999) (Num 8640000000000000)
     = Num 17280000000000000
  /\ Z.max 0 (8640000000000000 - -8639999999999999) = 17279999999999999%Z
  /\ countdownText (render initialState) = "Expired"
  /\ ~ RemainingIsExactDifference.
Proof.
  assert (H1 : isTimeValue (-8639999999999999)) by (unfold isTimeValue; lia).
  assert (H2 : isTimeValue 8640000000000000) by (unfold isTimeValue; lia).
  split; [exact H1 |]. split; [exact H2 |].
  split; [vm_compute; reflexivity |]. split; [reflexivity |].
  split; [reflexivity |].
  intros H. specialize (H _ _ H1 H2). vm_compute in H. discriminate H.
Qed.

(** C7, amended — Remaining time. For all time values [now] and [dueAt] the
    interval callback stores [max(0, d)], with [d] the double nearest to
    [dueAt - now]: a value that is never negative, that is 0 exactly when the due time is not
    after the current time, and that equals [max(0, dueAt - now)] whenever
    the two times are at most 2^53 ms apart. After a tick the countdown
    reads "Expired" exactly when the stored value is 0. While no tick has
    happened yet the countdown reads "Expired" as well. *)
Theorem remaining_is_rounded_clamped_difference (now dueAt : Z)
        (s : PanelState) :
  isTimeValue now ->
  isTimeValue dueAt ->
  (exists r : Z,
     remaining now (Num dueAt) = Num r
     /\ r = Z.max 0 (roundToDouble (dueAt - now))
     /\ (0 <= r)%Z
     /\ (r = 0%Z <-> (dueAt <= now)%Z)
     /\ countdownTime (stateOf (step (EvTick now (Num dueAt)) s))
        = Some (Num r)
     /\ (countdownText (render (stateOf (step (EvTick now (Num dueAt)) s)))
         = "Expired"
         <-> r = 0%Z))
  /\ ((Z.abs (dueAt - now) <= 9007199254740992)%Z ->
      remaining now (Num dueAt) = Num (Z.max 0 (dueAt - now)))
  /\ (countdownTime s = None -> countdownText (render s) = "Expired").
Proof.
  intros _ _.
  split; [| split].
  - exists (Z.max 0 (roundToDouble (dueAt - now))).
    destruct (roundToDouble_sign (dueAt - now)) as [Hneg Hpos].
    split; [apply remaining_value |]. split; [reflexivity |].
    split; [lia |]. split; [lia |].
    unfold step. rewrite countdownTick_run, remaining_value.
    split; [reflexivity |].
    change (countdownText
              (render (stateOf (Normal tt,
                                setCountdownTime
                                  (Some (Num (Z.max 0 (roundToDouble (dueAt - now)))))
                                  s,
                                if isZero (Num (Z.max 0 (roundToDouble (dueAt - now))))
                                then [ClearInterval] else []))))
      with (formatCountdown
              (Some (Num (Z.max 0 (roundToDouble (dueAt - now)))))).
    split.
    + intros H.
      destruct (Z.eq_dec (Z.max 0 (roundToDouble (dueAt - now))) 0)
        as [E | E]; [exact E |].
      exfalso. revert H. apply formatCountdown_running. lia.
    + intros ->. reflexivity.
  - intros H. rewrite remaining_value, (roundToDouble_exact _ H). reflexivity.
  - intros H. unfold render; simpl. rewrite H. reflexivity.
Qed.

Lemma remaining_is_rounded_clamped_difference_witness :
  isTimeValue 1000 /\ isTimeValue 4723004
  /\ remaining 1000 (Num 4723004) = Num 4722004.
Proof.
  assert (H1 : isTimeValue 1000) by (unfold isTimeValue; lia).
  assert (H2 : isTimeValue 4723004) by (unfold isTimeValue; lia).
  split; [exact H1 |]. split; [exact H2 |].
  apply (proj1 (proj2 (remaining_is_rounded_clamped_difference
                         1000 4723004 initialState H1 H2))).
  lia.
Defined.

(** ** The proof hash *)

Lemma byteHex_two_digits (b : byte) :
  byteHex b
  = String (hexDigit (Byte.to_N b / 16))
           (String (hexDigit (Byte.to_N b mod 16)) EmptyString).
Proof. destruct b; reflexivity. Qed.

Lemma hexDigit_lower (d : N) : (d < 16)%N -> isLowerHex (hexDigit d) = true.
Proof.
  intros H.
  assert (Hcases : In d [0; 1; 2; 3; 4; 5; 6; 7; 8; 9; 10; 11; 12; 13; 14; 15]%N).
  { simpl. lia. }
  simpl in Hcases.
  repeat (destruct Hcases as [<- | Hcases]; [reflexivity |]).
  contradiction.
Qed.

Lemma byteHex_lower (b : byte) : allChars isLowerHex (byteHex b) = true.
Proof.
  rewrite byteHex_two_digits. simpl.
  rewrite !hexDigit_lower; [reflexivity | |].
  - apply N.mod_lt. discriminate.
  - apply N.Div0.div_lt_upper_bound.
    pose proof (Byte.to_N_bounded b). lia.
Qed.

Lemma hashHex_length (hashArray : list byte) :
  String.length (hashHex hashArray) = 2 * List.length hashArray.
Proof.
  unfold hashHex, join.
  induction hashArray as [|b l IH]; simpl; [reflexivity |].
  rewrite string_length_app, IH, byteHex_two_digits. simpl. lia.
Qed.

Lemma hashHex_lower (hashArray : list byte) :
  allChars isLowerHex (hashHex hashArray) = true.
Proof.
  unfold hashHex, join.
  induction hashArray as [|b l IH]; simpl; [reflexivity |].
  rewrite allChars_app, IH, byteHex_lower. reflexivity.
Qed.

Lemma hashHex_digits (hashArray : list byte) :
  hashHex hashArray
  = join (map (fun b =>
                 String (hexDigit (Byte.to_N b / 16))
                        (String (hexDigit (Byte.to_N b mod 16)) EmptyString))
              hashArray).
Proof.
  unfold hashHex. f_equal. apply map_ext. intros b. apply byteHex_two_digits.
Qed.

Ltac scan_log H :=
  simpl in H;
  repeat (destruct H as [H | H]; [try discriminate |]);
  try contradiction.

Lemma handleFile_registers file uploadAnswer digestAnswer registerAnswer
      proofsAnswer s uri h :
  In (PostProof uri h)
     (logOf (handleFile file uploadAnswer digestAnswer registerAnswer
                        proofsAnswer s)) ->
  exists hashArray,
    digestAnswer = Normal hashArray /\ h = hashHex hashArray /\
    In (DigestSha256 file)
       (logOf (handleFile file uploadAnswer digestAnswer registerAnswer
                          proofsAnswer s)).
Proof.
  intros H.
  destruct uploadAnswer as [| |uploadJson]; [scan_log H | scan_log H |].
  destruct digestAnswer as [hashArray|]; [| scan_log H].
  exists hashArray. split; [reflexivity |].
  destruct registerAnswer as [proof|];
    [destruct proofsAnswer as [| |data] |];
    (split; [| simpl; tauto]);
    scan_log H; injection H as _ <-; reflexivity.
Qed.

(** Only an upload sends a proof registration. *)
Lemma step_registers e s uri h :
  In (PostProof uri h) (logOf (step e s)) ->
  exists file uploadAnswer digestAnswer registerAnswer proofsAnswer,
    e = EvUpload file uploadAnswer digestAnswer registerAnswer proofsAnswer /\
    step e s = handleFile file uploadAnswer digestAnswer registerAnswer
                          proofsAnswer s.
Proof.
  intros H. destruct e; unfold step in *.
  - rewrite fetchProofs_run in H. destruct answer; scan_log H.
  - rewrite fetchVotes_run in H. destruct answer; scan_log H.
  - rewrite countdownTick_run in H.
    destruct (isZero (remaining now due)); scan_log H.
  - destruct (nth_error _ _); scan_log H.
  - destruct (uploadDisabled (render s)); [scan_log H |].
    repeat eexists.
  - scan_log H.
  - destruct (voteButtonsDisabled (render s)) as [[|]|]; try scan_log H.
    rewrite handleVote_run in H.
    destruct (selectedProof s); [| scan_log H].
    destruct voteAnswer; [| scan_log H].
    rewrite fetchVotes_run in H. destruct votesAnswer; scan_log H.
  - destruct (disputeMenu (render s)) as [menu|]; [| scan_log H].
    destruct (chevronButton menu); scan_log H.
  - destruct (disputeMenu (render s)) as [menu|]; [| scan_log H].
    destruct (openDisputeButton menu) as [[|]|]; try scan_log H.
    rewrite handleOpenDispute_run in H. destruct disputeAnswer; scan_log H.
Qed.

(** C9 — The content hash. Whenever the panel registers a proof, the hash it
    sends is the hexadecimal rendering of the digest answered for the
    uploaded file's bytes: two characters of [0-9a-f] per byte, high digit
    first, hence 64 characters for the 32 bytes of a SHA-256 digest. *)
Theorem registered_hash_is_lowercase_hex (e : Event) (s : PanelState)
        (uri h : string) :
  In (PostProof uri h) (logOf (step e s)) ->
  exists file uploadAnswer hashArray registerAnswer proofsAnswer,
    e = EvUpload file uploadAnswer (Normal hashArray) registerAnswer proofsAnswer
    /\ In (DigestSha256 file) (logOf (step e s))
    /\ h = hashHex hashArray
    /\ h = join (map (fun b =>
                        String (hexDigit (Byte.to_N b / 16))
                               (String (hexDigit (Byte.to_N b mod 16))
                                       EmptyString))
                     hashArray)
    /\ allChars isLowerHex h = true
    /\ String.length h = 2 * List.length hashArray
    /\ (List.length hashArray = 32 -> String.length h = 64).
Proof.
  intros H.
  destruct (step_registers e s uri h H)
    as (file & ua & da & ra & pa & -> & Hstep).
  rewrite Hstep in H |- *.
  destruct (handleFile_registers _ _ _ _ _ _ _ _ H) as (hashArray & -> & -> & Hd).
  exists file, ua, hashArray, ra, pa.
  split; [reflexivity |]. split; [exact Hd |]. split; [reflexivity |].
  split; [apply hashHex_digits |]. split; [apply hashHex_lower |].
  split; [apply hashHex_length |].
  intros Hlen. rewrite hashHex_length, Hlen. reflexivity.
Qed.

Lemma registered_hash_is_lowercase_hex_witness :
  In (PostProof "/uploads/a.png"
        "9f86d081884c7d659a2feaa0c55ad015a3bf4f1b2b0b822cd15d6c15b0f00a08")
     (logOf (step Samples.uploadOk initialState))
  /\ exists file uploadAnswer hashArray registerAnswer proofsAnswer,
       Samples.uploadOk
       = EvUpload file uploadAnswer (Normal hashArray) registerAnswer proofsAnswer
       /\ List.length hashArray = 32.
Proof.
  assert (H : In (PostProof "/uploads/a.png"
                    "9f86d081884c7d659a2feaa0c55ad015a3bf4f1b2b0b822cd15d6c15b0f00a08")
                 (logOf (step Samples.uploadOk initialState))).
  { vm_compute. right. right. left. reflexivity. }
  split; [exact H |].
  destruct (registered_hash_is_lowercase_hex _ _ _ _ H)
    as (file & ua & hashArray & ra & pa & He & _).
  exists file, ua, hashArray, ra, pa. split; [exact He |].
  injection He as _ _ <- _ _. reflexivity.
Defined.

(** ** Where the selected proof comes from *)

Lemma fetchVotes_keeps answer s :
  proofs (stateOf (fetchVotes answer s)) = proofs s
  /\ selectedProof (stateOf (fetchVotes answer s)) = selectedProof s
  /\ myVote (stateOf (fetchVotes answer s)) = myVote s.
Proof.
  rewrite fetchVotes_run. destruct answer; simpl; auto.
  destruct (autoReleaseCheck (buildVoteMap json)); simpl; auto.
Qed.

Lemma handleVote_keeps c voteAnswer votesAnswer s :
  proofs (stateOf (handleVote c voteAnswer votesAnswer s)) = proofs s
  /\ selectedProof (stateOf (handleVote c voteAnswer votesAnswer s))
     = selectedProof s.
Proof.
  rewrite handleVote_run.
  destruct (selectedProof s) eqn:E; [| simpl; auto].
  destruct voteAnswer; [| simpl; auto].
  destruct (fetchVotes_keeps votesAnswer (setMyVote (Some c) s))
    as (H1 & H2 & _).
  unfold stateOf in *. simpl in *. rewrite H1, H2. auto.
Qed.

Lemma step_proofs e s p :
  In p (proofs (stateOf (step e s))) ->
  In p (proofs s) \/ In p (answeredProofs e s).
Proof.
  destruct e; unfold step.
  - rewrite fetchProofs_run. destruct answer; simpl; auto.
  - destruct (fetchVotes_keeps answer s) as (-> & _). auto.
  - rewrite countdownTick_run. simpl. auto.
  - destruct (nth_error _ _); simpl; auto.
  - destruct (uploadDisabled (render s)) eqn:Eu; [simpl; auto |].
    destruct (handleFile_end file uploadAnswer digestAnswer registerAnswer
                proofsAnswer s)
      as [(_ & _ & Hp)
         | (j & a & proof & -> & -> & -> & _ & _
            & [[Hp _] | (data & -> & Hp)])];
      rewrite Hp; unfold answeredProofs; rewrite ?Eu; simpl; auto.
  - simpl. auto.
  - destruct (voteButtonsDisabled (render s)) as [[|]|]; simpl; auto.
    destruct (handleVote_keeps choice0 voteAnswer votesAnswer s) as (-> & _).
    auto.
  - destruct (disputeMenu (render s)) as [menu|]; simpl; auto.
    destruct (chevronButton menu); simpl; auto.
  - destruct (disputeMenu (render s)) as [menu|]; simpl; auto.
    destruct (openDisputeButton menu) as [[|]|]; simpl; auto.
    rewrite handleOpenDispute_run. destruct disputeAnswer; simpl; auto.
Qed.

Lemma step_selected e s p :
  selectedProof (stateOf (step e s)) = Some p ->
  selectedProof s = Some p \/ In p (proofs s) \/ In p (answeredProofs e s).
Proof.
  destruct e; unfold step.
  - rewrite fetchProofs_run. destruct answer; simpl; auto.
  - destruct (fetchVotes_keeps answer s) as (_ & -> & _). auto.
  - rewrite countdownTick_run. simpl. auto.
  - destruct (nth_error _ _) as [q|] eqn:E; simpl; auto.
    intros H. injection H as ->. right. left.
    eapply nth_error_In. exact E.
  - destruct (uploadDisabled (render s)) eqn:Eu; [simpl; auto |].
    destruct (handleFile_end file uploadAnswer digestAnswer registerAnswer
                proofsAnswer s)
      as [(_ & Hs & _) | (j & a & proof & -> & -> & -> & _ & Hs & _)];
      rewrite Hs; auto.
    intros H. injection H as ->. right. right.
    unfold answeredProofs. rewrite Eu. simpl. auto.
  - simpl. auto.
  - destruct (voteButtonsDisabled (render s)) as [[|]|]; simpl; auto.
    destruct (handleVote_keeps choice0 voteAnswer votesAnswer s) as (_ & ->).
    auto.
  - destruct (disputeMenu (render s)) as [menu|]; simpl; auto.
    destruct (chevronButton menu); simpl; auto.
  - destruct (disputeMenu (render s)) as [menu|]; simpl; auto.
    destruct (openDisputeButton menu) as [[|]|]; simpl; auto.
    rewrite handleOpenDispute_run. destruct disputeAnswer; simpl; auto.
Qed.

Lemma run_cons e es s :
  run (e :: es) s
  = (fst (run es (stateOf (step e s))),
     logOf (step e s) ++ snd (run es (stateOf (step e s)))).
Proof. reflexivity. Qed.

Lemma run_proofs es s p :
  In p (proofs (fst (run es s))) ->
  In p (proofs s) \/ In p (allAnsweredProofs es s).
Proof.
  revert s. induction es as [|e es IH]; intros s H.
  - left. exact H.
  - rewrite run_cons in H. cbn [fst] in H.
    apply IH in H. cbn [allAnsweredProofs]. rewrite in_app_iff.
    destruct H as [H | H]; [| auto].
    apply step_proofs in H. tauto.
Qed.

Lemma run_selected es s p :
  selectedProof (fst (run es s)) = Some p ->
  selectedProof s = Some p \/ In p (proofs s) \/ In p (allAnsweredProofs es s).
Proof.
  revert s. induction es as [|e es IH]; intros s H.
  - left. exact H.
  - rewrite run_cons in H. cbn [fst] in H.
    apply IH in H. cbn [allAnsweredProofs]. rewrite in_app_iff.
    destruct H as [H | [H | H]]; [| | auto].
    + apply step_selected in H. tauto.
    + apply step_proofs in H. tauto.
Qed.


(** A vote that the server rejects leaves every cell of the panel as it
    was. *)
Lemma rejected_vote_changes_nothing c message votesAnswer s :
  stateOf (step (EvVote c (Throw message) votesAnswer) s) = s.
Proof.
  unfold step.
  destruct (voteButtonsDisabled (render s)) as [[|]|]; try reflexivity.
  rewrite handleVote_run. destruct (selectedProof s); reflexivity.
Qed.

(** ** Votes and the proofs they reference *)

(** C3, as stated, fails: after the user's vote for "challenger" was
    accepted, the vote buttons are still enabled; a click on the other one
    sends a vote for "challenged" whatever the server will answer, and when
    the server accepts it the recorded choice is replaced. *)
Lemma second_vote_is_sent :
  myVote Samples.afterVotedOnce = Some challenger
  /\ JsObject.values (votes Samples.afterVotedOnce)
     = [Samples.voteOf "u1" challenger]
  /\ voteButtonsDisabled (render Samples.afterVotedOnce) = Some false
  /\ logOf (step (EvVote challenged (Throw None) FetchNotOk)
                 Samples.afterVotedOnce)
     = [PostVote challenged (proof_hash Samples.proofA);
        ConsoleError "Error voting:"; Alert "Vote failed"]
  /\ logOf (step Samples.secondVote Samples.afterVotedOnce)
     = [PostVote challenged (proof_hash Samples.proofA); GetVotes]
  /\ myVote (stateOf (step Samples.secondVote Samples.afterVotedOnce))
     = Some challenged
  /\ JsObject.values
       (votes (stateOf (step Samples.secondVote Samples.afterVotedOnce)))
     = [Samples.voteOf "u1" challenged]
  /\ ~ VoteIsWriteOnce.
Proof.
  repeat (split; [reflexivity |]).
  intros H.
  destruct (H Samples.afterVotedOnce challenger challenged (Throw None)
              FetchNotOk eq_refl)
    as [Hsent _].
  apply (Hsent (proof_hash Samples.proofA)).
  left. reflexivity.
Qed.

(** C3, amended — The panel does not limit a participant to one vote: the
    vote buttons are enabled or disabled regardless of the votes held, so a
    later attempt is sent like the first. When the server rejects an attempt
    ("Vote failed"), every cell of the panel, the votes held and the user's
    first choice among them, is unchanged. *)
Theorem rejected_vote_keeps_first_vote (s : PanelState) (first next : Choice)
        (message : option string) (votesAnswer : FetchAnswer (list Vote)) :
  myVote s = Some first ->
  stateOf (step (EvVote next (Throw message) votesAnswer) s) = s
  /\ myVote (stateOf (step (EvVote next (Throw message) votesAnswer) s))
     = Some first
  /\ (forall voteMap choice,
        voteButtonsDisabled (render (setMyVote choice (setVotes voteMap s)))
        = voteButtonsDisabled (render s))
  /\ (voteButtonsDisabled (render s) = Some false ->
      exists p,
        selectedProof s = Some p /\
        logOf (step (EvVote next (Throw message) votesAnswer) s)
        = [PostVote next (proof_hash p); ConsoleError "Error voting:";
           Alert "Vote failed"]).
Proof.
  intros Hmy.
  rewrite rejected_vote_changes_nothing.
  split; [reflexivity |]. split; [exact Hmy |]. split; [reflexivity |].
  intros Hen. unfold step. rewrite Hen, handleVote_run.
  unfold render in Hen. simpl in Hen.
  destruct (selectedProof s) as [p|]; [| discriminate].
  exists p. split; reflexivity.
Qed.

Lemma rejected_vote_keeps_first_vote_witness :
  myVote Samples.afterVotedOnce = Some challenger
  /\ stateOf (step (EvVote challenged (Throw (Some "Already voted"))
                           FetchNotOk)
                   Samples.afterVotedOnce)
     = Samples.afterVotedOnce.
Proof.
  split; [reflexivity |].
  exact (proj1 (rejected_vote_keeps_first_vote
                  Samples.afterVotedOnce challenger challenged
                  (Some "Already voted") FetchNotOk eq_refl)).
Defined.

(** ** After a terminal status *)

(** The controls that are locked once the status is ['released'] or
    ['disputed']. *)
Lemma settled_controls_locked (s : PanelState) :
  status s = Some st_released \/ status s = Some st_disputed ->
  uploadDisabled (render s) = true
  /\ voteButtonsDisabled (render s) <> Some false
  /\ (forall file uploadAnswer digestAnswer registerAnswer proofsAnswer,
        step (EvUpload file uploadAnswer digestAnswer registerAnswer
                       proofsAnswer) s
        = (Normal tt, s, []))
  /\ (forall c voteAnswer votesAnswer,
        step (EvVote c voteAnswer votesAnswer) s = (Normal tt, s, [])).
Proof.
  intros Hst.
  assert (Hup : uploadDisabled (render s) = true).
  { unfold render; simpl.
    destruct Hst as [-> | ->]; simpl; rewrite ?orb_true_r; reflexivity. }
  assert (Hvote : voteButtonsDisabled (render s) = None
                  \/ voteButtonsDisabled (render s) = Some true).
  { unfold render; simpl. destruct (selectedProof s); [right | left; reflexivity].
    destruct Hst as [-> | ->]; reflexivity. }
  split; [exact Hup |]. split.
  - destruct Hvote as [-> | ->]; discriminate.
  - split.
    + intros. unfold step. rewrite Hup. reflexivity.
    + intros. unfold step. destruct Hvote as [-> | ->]; reflexivity.
Qed.

(** C4 — Settlement is final. The panel locks the upload and vote controls
    once the status is ['released'] or ['disputed'], but not once it is
    ['auto-released']: after two agreeing votes the upload button and the
    vote buttons are still enabled, an upload replaces the status by
    ['voting'], and a further vote is sent. *)
Theorem auto_released_is_not_locked :
  (forall s,
     status s = Some st_released \/ status s = Some st_disputed ->
     uploadDisabled (render s) = true
     /\ voteButtonsDisabled (render s) <> Some false)
  /\ (forall s,
        status s = Some st_auto_released ->
        uploadDisabled (render s) = uploading s
        /\ (selectedProof s <> None ->
            voteButtonsDisabled (render s) = Some false))
  /\ status Samples.afterBothAgree = Some st_auto_released
  /\ uploadDisabled (render Samples.afterBothAgree) = false
  /\ voteButtonsDisabled (render Samples.afterBothAgree) = Some false
  /\ status (stateOf (step Samples.uploadOk Samples.afterBothAgree))
     = Some st_voting
  /\ logOf (step Samples.uploadOk Samples.afterBothAgree)
     = [PostUpload [x74; x65; x73; x74];
        DigestSha256 [x74; x65; x73; x74];
        PostProof "/uploads/a.png" (hashHex Samples.digestA);
        GetProofs]
  /\ logOf (step Samples.secondVote Samples.afterBothAgree)
     = [PostVote challenged (proof_hash Samples.proofA); GetVotes]
  /\ myVote (stateOf (step Samples.secondVote Samples.afterBothAgree))
     = Some challenged.
Proof.
  split; [| split].
  - intros s Hst.
    destruct (settled_controls_locked s Hst) as (H1 & H2 & _). auto.
  - intros s Hst. unfold render; simpl. rewrite Hst. simpl.
    split; [rewrite !orb_false_r; reflexivity |].
    destruct (selectedProof s); [reflexivity | intros H; contradiction H; reflexivity].
  - repeat split; reflexivity.
Qed.

(** ** Expiry *)

Lemma fewer_than_two_votes_show_nothing (s : PanelState) :
  List.length (votes s) < 2 ->
  bothVoted s = false /\ votesMatch s = false.
Proof.
  intros Hlen. unfold votesMatch, bothVoted.
  rewrite JsObjectFacts.keys_length.
  destruct (List.length (votes s)) as [|[|n]]; simpl; auto. lia.
Qed.

(** C6, as stated, fails: a tick after the deadline, on a panel without
    votes, stores 0 and stops the timer, and raises no dispute. *)
Lemma expiry_raises_no_dispute :
  step (EvTick 1000 (Num 500)) initialState
  = (Normal tt, setCountdownTime (Some (Num 0)) initialState, [ClearInterval])
  /\ status (stateOf (step (EvTick 1000 (Num 500)) initialState)) = None
  /\ disputeMenu (render (stateOf (step (EvTick 1000 (Num 500)) initialState)))
     = None
  /\ ~ ExpiryRaisesDispute.
Proof.
  repeat (split; [reflexivity |]).
  intros H.
  assert (Hlen : List.length (votes initialState) < 2) by (simpl; lia).
  destruct (H 1000%Z (Num 500) initialState eq_refl Hlen)
    as [H1 | [H1 | [H1 | H1]]].
  - discriminate H1.
  - vm_compute in H1. destruct H1 as [H1 | []]. discriminate H1.
  - discriminate H1.
  - apply H1. reflexivity.
Qed.

(** C6, amended — Expiry is displayed, not escalated. A tick that finds the
    deadline elapsed stores a remaining time of 0, stops the timer, and the
    countdown reads "Expired"; while fewer than two votes are held, the
    status and the votes stay as they were, nothing is sent to the server,
    and neither a vote result nor the dispute box is shown. *)
Theorem expiry_is_only_displayed (now dueAt : Z) (s : PanelState) :
  (dueAt <= now)%Z ->
  List.length (votes s) < 2 ->
  step (EvTick now (Num dueAt)) s
  = (Normal tt, setCountdownTime (Some (Num 0)) s, [ClearInterval])
  /\ countdownText (render (stateOf (step (EvTick now (Num dueAt)) s)))
     = "Expired"
  /\ status (stateOf (step (EvTick now (Num dueAt)) s)) = status s
  /\ votes (stateOf (step (EvTick now (Num dueAt)) s)) = votes s
  /\ voteResult (render (stateOf (step (EvTick now (Num dueAt)) s))) = None
  /\ disputeMenu (render (stateOf (step (EvTick now (Num dueAt)) s))) = None.
Proof.
  intros Hdue Hlen.
  assert (Hrem : remaining now (Num dueAt) = Num 0)
    by (apply remaining_elapsed, Hdue).
  assert (Hstep : step (EvTick now (Num dueAt)) s
                  = (Normal tt, setCountdownTime (Some (Num 0)) s,
                     [ClearInterval])).
  { unfold step. rewrite countdownTick_run, Hrem. reflexivity. }
  rewrite Hstep. split; [reflexivity |].
  destruct (fewer_than_two_votes_show_nothing
              (setCountdownTime (Some (Num 0)) s) Hlen) as [Hb Hm].
  unfold render, stateOf; simpl.
  unfold stateOf in Hb, Hm. rewrite Hb.
  repeat split; reflexivity.
Qed.

Lemma expiry_is_only_displayed_witness :
  (500 <= 1000)%Z
  /\ step (EvTick 1000 (Num 500)) Samples.afterVotedOnce
     = (Normal tt, setCountdownTime (Some (Num 0)) Samples.afterVotedOnce,
        [ClearInterval]).
Proof.
  assert (Hdue : (500 <= 1000)%Z) by lia.
  assert (Hlen : List.length (votes Samples.afterVotedOnce) < 2)
    by (vm_compute; lia).
  split; [exact Hdue |].
  exact (proj1 (expiry_is_only_displayed 1000 500 Samples.afterVotedOnce
                                         Hdue Hlen)).
Defined.

(** ** Opening a dispute *)

(** The dispute box is rendered exactly for two votes of differing choice. *)
Lemma dispute_box_condition (s : PanelState) :
  bothVoted s && negb (votesMatch s) = true <-> TwoDifferingVotes (votes s).
Proof.
  rewrite <- autoReleaseCheck_votesMatch. split.
  - intros H. apply andb_true_iff in H. destruct H as [Hb Hm].
    apply negb_true_iff in Hm.
    unfold bothVoted in Hb. apply Nat.eqb_eq in Hb.
    rewrite JsObjectFacts.keys_length in Hb.
    split; [exact Hb |].
    pose proof (JsObjectFacts.values_length (votes s)) as Hv.
    rewrite Hb in Hv.
    destruct (JsObject.values (votes s)) as [|v1 [|v2 [|v3 vs]]] eqn:E;
      try discriminate Hv.
    exists v1, v2. split; [reflexivity |].
    intros Heq.
    assert (Ht : autoReleaseCheck (votes s) = true).
    { apply autoReleaseCheck_values. exists v1, v2. auto. }
    congruence.
  - intros Hd.
    rewrite (TwoDifferingVotes_not_equal _ Hd).
    unfold bothVoted. rewrite JsObjectFacts.keys_length.
    destruct Hd as [-> _]. reflexivity.
Qed.

Lemma dispute_box_hidden (s : PanelState) :
  ~ TwoDifferingVotes (votes s) -> bothVoted s && negb (votesMatch s) = false.
Proof.
  intros Hn. destruct (bothVoted s && negb (votesMatch s)) eqn:E;
    [| reflexivity].
  exfalso. apply Hn, dispute_box_condition, E.
Qed.

Lemma step_showDisputeMenu (s : PanelState) :
  step EvShowDisputeMenu s
  = if bothVoted s && negb (votesMatch s) && negb (showDisputeMenu s)
    then (Normal tt, setShowDisputeMenu true s, [])
    else (Normal tt, s, []).
Proof.
  unfold step, render; simpl.
  destruct (bothVoted s && negb (votesMatch s)); simpl;
    [destruct (showDisputeMenu s) |]; reflexivity.
Qed.

Lemma step_openDispute (s : PanelState) (disputeAnswer : Completion unit) :
  step (EvOpenDispute disputeAnswer) s
  = if bothVoted s && negb (votesMatch s) && showDisputeMenu s
       && negb (status_is (status s) st_disputed)
    then handleOpenDispute disputeAnswer s
    else (Normal tt, s, []).
Proof.
  unfold step, render; simpl.
  destruct (bothVoted s && negb (votesMatch s)); simpl; [| reflexivity].
  destruct (showDisputeMenu s); simpl; [| reflexivity].
  destruct (status_is (status s) st_disputed); reflexivity.
Qed.

Lemma run_openDisputeClicks (s : PanelState) :
  run openDisputeClicks s
  = (stateOf (step (EvOpenDispute (Normal tt)) (stateOf (step EvShowDisputeMenu s))),
     logOf (step EvShowDisputeMenu s)
       ++ logOf (step (EvOpenDispute (Normal tt))
                      (stateOf (step EvShowDisputeMenu s))) ++ []).
Proof. reflexivity. Qed.

(** C8, as stated, fails: on a panel without votes, and on one with a
    single vote, no terminal status is set, the dispute box is not rendered
    and the clicks that open a dispute do nothing. *)
Lemma no_dispute_before_both_voted :
  disputeMenu (render initialState) = None
  /\ run openDisputeClicks initialState = (initialState, [])
  /\ status Samples.afterVotedOnce = None
  /\ disputeMenu (render Samples.afterVotedOnce) = None
  /\ run openDisputeClicks Samples.afterVotedOnce = (Samples.afterVotedOnce, [])
  /\ ~ DisputeAlwaysAvailable.
Proof.
  repeat (split; [reflexivity |]).
  intros H.
  assert (Hs : status (fst (run openDisputeClicks initialState))
               = Some st_disputed)
    by (apply H; discriminate).
  vm_compute in Hs. discriminate.
Qed.

(** C8, amended — A dispute can be opened from the panel only while it
    holds exactly two votes whose choices differ. Then, unless the status is
    already ['disputed'], unfolding the box and pressing "Open Dispute"
    sends the request and, once it is accepted, sets the status to
    ['disputed'] at once. With no vote, one vote or two agreeing votes the
    dispute box is not rendered and the clicks do nothing. *)
Theorem dispute_needs_two_differing_votes (s : PanelState) :
  (TwoDifferingVotes (votes s) ->
   status s <> Some st_disputed ->
   status (fst (run openDisputeClicks s)) = Some st_disputed
   /\ snd (run openDisputeClicks s) = [PostDispute])
  /\ (~ TwoDifferingVotes (votes s) ->
      disputeMenu (render s) = None
      /\ run openDisputeClicks s = (s, [])
      /\ forall disputeAnswer,
           step (EvOpenDispute disputeAnswer) s = (Normal tt, s, [])).
Proof.
  split.
  - intros Hd Hst.
    apply dispute_box_condition in Hd.
    assert (Hnd : status_is (status s) st_disputed = false).
    { destruct (status s) as [[]|]; try reflexivity.
      contradiction Hst. reflexivity. }
    rewrite run_openDisputeClicks, step_showDisputeMenu, Hd.
    destruct (showDisputeMenu s) eqn:Em; cbn [andb negb stateOf logOf fst snd].
    + rewrite step_openDispute, Hd, Em, Hnd. split; reflexivity.
    + rewrite step_openDispute.
      change (bothVoted (setShowDisputeMenu true s)) with (bothVoted s).
      change (votesMatch (setShowDisputeMenu true s)) with (votesMatch s).
      rewrite Hd.
      change (status (setShowDisputeMenu true s)) with (status s).
      rewrite Hnd. split; reflexivity.
  - intros Hn. apply dispute_box_hidden in Hn.
    split; [unfold render; simpl; rewrite Hn; reflexivity |].
    split.
    + rewrite run_openDisputeClicks, step_showDisputeMenu, Hn.
      cbn [andb negb stateOf logOf fst snd].
      rewrite step_openDispute, Hn. reflexivity.
    + intros disputeAnswer. rewrite step_openDispute, Hn. reflexivity.
Qed.

Lemma dispute_needs_two_differing_votes_witness :
  TwoDifferingVotes (votes Samples.afterBothDisagree)
  /\ status Samples.afterBothDisagree <> Some st_disputed
  /\ status (fst (run openDisputeClicks Samples.afterBothDisagree))
     = Some st_disputed.
Proof.
  assert (Hd : TwoDifferingVotes (votes Samples.afterBothDisagree)).
  { split; [reflexivity |].
    exists (Samples.voteOf "u1" challenger), (Samples.voteOf "u2" challenged).
    split; [reflexivity | discriminate]. }
  assert (Hst : status Samples.afterBothDisagree <> Some st_disputed)
    by (vm_compute; discriminate).
  split; [exact Hd |]. split; [exact Hst |].
  exact (proj1 (proj1 (dispute_needs_two_differing_votes
                         Samples.afterBothDisagree) Hd Hst)).
Defined.


(** ** The vote object built from the server's answer *)

Lemma vote_copy (v : Vote) : mkVote (userId v) (choice v) (timestamp v) = v.
Proof. destruct v; reflexivity. Qed.

Lemma put_in {V : Type} (k : string) (v : V) (o : JsObject.t V) k' v' :
  In (k', v') (JsObject.put k v o) -> (k' = k /\ v' = v) \/ In (k', v') o.
Proof.
  induction o as [|[k0 v0] o IH]; simpl.
  - intros [H | []]. injection H as <- <-. auto.
  - destruct (String.eqb k k0) eqn:E; simpl.
    + apply String.eqb_eq in E. subst k0.
      intros [H | H]; [injection H as <- <-; auto | auto].
    + intros [H | H]; [auto |]. apply IH in H. tauto.
Qed.

Lemma put_keys_in {V : Type} (k : string) (v : V) (o : JsObject.t V) k' :
  In k' (map fst (JsObject.put k v o)) -> k' = k \/ In k' (map fst o).
Proof.
  intros H. apply in_map_iff in H. destruct H as [[k1 v1] [Hk Hin]].
  simpl in Hk. subst k1. apply put_in in Hin.
  destruct Hin as [[-> _] | Hin]; [auto |].
  right. apply in_map_iff. exists (k', v1). auto.
Qed.

Lemma put_NoDup {V : Type} (k : string) (v : V) (o : JsObject.t V) :
  NoDup (map fst o) -> NoDup (map fst (JsObject.put k v o)).
Proof.
  induction o as [|[k0 v0] o IH]; simpl; intros Hnd.
  - constructor; [intros [] | constructor].
  - inversion Hnd as [|x l Hnotin Hnd']; subst.
    destruct (String.eqb k k0) eqn:E; simpl.
    + constructor; assumption.
    + constructor; [| apply IH, Hnd'].
      intros Hin. apply put_keys_in in Hin.
      destruct Hin as [-> | Hin]; [| contradiction].
      rewrite String.eqb_refl in E. discriminate.
Qed.

Lemma put_length {V : Type} (k : string) (v : V) (o : JsObject.t V) :
  List.length (JsObject.put k v o) <= S (List.length o).
Proof.
  induction o as [|[k0 v0] o IH]; simpl; [lia |].
  destruct (String.eqb k k0); simpl; lia.
Qed.

Lemma ownProperty_put {V : Type} (k : string) (v : V) (o : JsObject.t V) k' :
  ownProperty k' (JsObject.put k v o)
  = if String.eqb k' k then Some v else ownProperty k' o.
Proof.
  induction o as [|[k0 v0] o IH]; simpl.
  - destruct (String.eqb k' k); reflexivity.
  - destruct (String.eqb k k0) eqn:E; simpl.
    + apply String.eqb_eq in E. subst k0.
      destruct (String.eqb k' k); reflexivity.
    + rewrite IH. destruct (String.eqb k' k0) eqn:E0; [| reflexivity].
      apply String.eqb_eq in E0. subst k0.
      rewrite String.eqb_sym, E. reflexivity.
Qed.

Lemma set_WellKeyed (v : Vote) (o : JsObject.t Vote) :
  WellKeyed o -> WellKeyed (JsObject.set (userId v) v o).
Proof.
  intros [Hnd Hkeys]. unfold JsObject.set.
  destruct (String.eqb (userId v) "__proto__") eqn:E; [split; assumption |].
  split; [apply put_NoDup, Hnd |].
  intros k w Hin. apply put_in in Hin.
  destruct Hin as [[-> ->] | Hin]; [| apply Hkeys, Hin].
  split; [reflexivity |]. intros H. rewrite H in E. discriminate.
Qed.

Lemma foldVotes_WellKeyed (data : list Vote) (acc : JsObject.t Vote) :
  WellKeyed acc ->
  WellKeyed
    (fold_left
       (fun voteMap v =>
          JsObject.set (userId v) (mkVote (userId v) (choice v) (timestamp v))
                       voteMap)
       data acc).
Proof.
  revert acc. induction data as [|v data IH]; intros acc H; simpl; [exact H |].
  apply IH. rewrite vote_copy. apply set_WellKeyed, H.
Qed.

Lemma buildVoteMap_WellKeyed (data : list Vote) : WellKeyed (buildVoteMap data).
Proof.
  apply foldVotes_WellKeyed. split; [constructor | intros k v []].
Qed.

Lemma foldVotes_from (data : list Vote) (acc : JsObject.t Vote) k v :
  In (k, v)
     (fold_left
        (fun voteMap v =>
           JsObject.set (userId v) (mkVote (userId v) (choice v) (timestamp v))
                        voteMap)
        data acc) ->
  In (k, v) acc \/ In v data.
Proof.
  revert acc. induction data as [|w data IH]; intros acc H; simpl in *; [auto |].
  apply IH in H. destruct H as [H | H]; [| auto].
  rewrite vote_copy in H. unfold JsObject.set in H.
  destruct (String.eqb (userId w) "__proto__"); [auto |].
  apply put_in in H. destruct H as [[_ ->] | H]; auto.
Qed.

Lemma buildVoteMap_from (data : list Vote) k v :
  In (k, v) (buildVoteMap data) -> In v data.
Proof.
  intros H. apply foldVotes_from in H. destruct H as [[] | H]. exact H.
Qed.

Lemma foldVotes_length (data : list Vote) (acc : JsObject.t Vote) :
  List.length
    (fold_left
       (fun voteMap v =>
          JsObject.set (userId v) (mkVote (userId v) (choice v) (timestamp v))
                       voteMap)
       data acc)
  <= List.length acc + List.length data.
Proof.
  revert acc. induction data as [|w data IH]; intros acc; simpl; [lia |].
  eapply Nat.le_trans; [apply IH |].
  unfold JsObject.set.
  destruct (String.eqb (userId w) "__proto__"); [lia |].
  pose proof (put_length (userId w)
                (mkVote (userId w) (choice w) (timestamp w)) acc). lia.
Qed.

(** The votes cell only ever holds an object built from an answer. *)
Lemma step_votes_cell (e : Event) (s : PanelState) :
  votes (stateOf (step e s)) = votes s
  \/ exists data, votes (stateOf (step e s)) = buildVoteMap data.
Proof.
  destruct e; unfold step.
  - rewrite fetchProofs_run. destruct answer; simpl; auto.
  - rewrite fetchVotes_run. destruct answer; simpl; auto.
    right. exists json.
    destruct (autoReleaseCheck (buildVoteMap json)); reflexivity.
  - rewrite countdownTick_run. simpl. auto.
  - destruct (nth_error _ _); simpl; auto.
  - destruct (uploadDisabled (render s)); [simpl; auto |].
    left. apply handleFile_votes.
  - simpl. auto.
  - destruct (voteButtonsDisabled (render s)) as [[|]|]; simpl; auto.
    rewrite handleVote_run.
    destruct (selectedProof s); simpl; auto.
    destruct voteAnswer; simpl; auto.
    rewrite fetchVotes_run. destruct votesAnswer; simpl; auto.
    right. exists json.
    destruct (autoReleaseCheck (buildVoteMap json)); reflexivity.
  - destruct (disputeMenu (render s)) as [menu|]; simpl; auto.
    destruct (chevronButton menu); simpl; auto.
  - destruct (disputeMenu (render s)) as [menu|]; simpl; auto.
    destruct (openDisputeButton menu) as [[|]|]; simpl; auto.
    rewrite handleOpenDispute_run. destruct disputeAnswer; simpl; auto.
Qed.

Lemma run_WellKeyed (es : list Event) (s : PanelState) :
  WellKeyed (votes s) -> WellKeyed (votes (fst (run es s))).
Proof.
  revert s. induction es as [|e es IH]; intros s H; [exact H |].
  rewrite run_cons. cbn [fst]. apply IH.
  destruct (step_votes_cell e s) as [-> | [data ->]];
    [exact H | apply buildVoteMap_WellKeyed].
Qed.

(** X1 — One entry per voter. In every state the panel can reach, the votes
    object has pairwise distinct keys, each entry is filed under the
    [userId] of its vote, and no entry is filed under ["__proto__"]; an
    object built from an answer has no more entries than the answer has
    votes, and each entry is one of the answered votes. *)
Theorem votes_hold_one_entry_per_voter :
  (forall es : list Event, WellKeyed (votes (fst (run es initialState))))
  /\ (forall data : list Vote,
        WellKeyed (buildVoteMap data)
        /\ List.length (buildVoteMap data) <= List.length data
        /\ forall k v, In (k, v) (buildVoteMap data) -> In v data).
Proof.
  split.
  - intros es. apply run_WellKeyed. split; [constructor | intros k v []].
  - intros data. split; [apply buildVoteMap_WellKeyed |]. split.
    + apply (foldVotes_length data JsObject.empty).
    + intros k v. apply buildVoteMap_from.
Qed.

Lemma ownProperty_set (v : Vote) (o : JsObject.t Vote) (u : string) :
  ownProperty u (JsObject.set (userId v) v o)
  = if String.eqb (userId v) "__proto__" then ownProperty u o
    else if String.eqb u (userId v) then Some v else ownProperty u o.
Proof.
  unfold JsObject.set.
  destruct (String.eqb (userId v) "__proto__"); [reflexivity |].
  apply ownProperty_put.
Qed.

Lemma foldVotes_ownProperty (data : list Vote) (acc : JsObject.t Vote) u :
  ownProperty u
    (fold_left
       (fun voteMap v =>
          JsObject.set (userId v) (mkVote (userId v) (choice v) (timestamp v))
                       voteMap)
       data acc)
  = if String.eqb u "__proto__" then ownProperty u acc
    else match lastVoteOf u data with
         | Some w => Some w
         | None => ownProperty u acc
         end.
Proof.
  revert acc. induction data as [|v data IH]; intros acc; simpl.
  - destruct (String.eqb u "__proto__"); reflexivity.
  - rewrite IH, vote_copy, ownProperty_set.
    destruct (String.eqb u "__proto__") eqn:Eu.
    + apply String.eqb_eq in Eu. subst u.
      destruct (String.eqb (userId v) "__proto__") eqn:Ev; [reflexivity |].
      rewrite String.eqb_sym, Ev. reflexivity.
    + destruct (lastVoteOf u data); [reflexivity |].
      destruct (String.eqb u (userId v)) eqn:Euv.
      * apply String.eqb_eq in Euv. subst u. rewrite Eu. reflexivity.
      * destruct (String.eqb (userId v) "__proto__"); reflexivity.
Qed.

(** X2 — The last vote wins. In the object built from an answer, the entry
    of a user is that user's last vote in the answer, and a user without a
    vote in the answer has no entry; nothing is ever filed under
    ["__proto__"], even when the answer carries votes of such a user. *)
Theorem last_answered_vote_wins (data : list Vote) (u : string) :
  ownProperty u (buildVoteMap data)
  = if String.eqb u "__proto__" then None else lastVoteOf u data.
Proof.
  unfold buildVoteMap. rewrite foldVotes_ownProperty. simpl.
  destruct (String.eqb u "__proto__"); [reflexivity |].
  destruct (lastVoteOf u data); reflexivity.
Qed.

Lemma autoReleaseCheck_pair (k1 k2 : string) (v1 v2 : Vote) :
  autoReleaseCheck [(k1, v1); (k2, v2)] = Choice_eqb (choice v1) (choice v2).
Proof.
  pose proof (JsObjectFacts.entries_perm [(k1, v1); (k2, v2)]) as Hp.
  apply (Permutation_map snd) in Hp. simpl in Hp.
  apply Permutation_sym, Permutation_length_2_inv in Hp.
  assert (Hv : JsObject.values [(k1, v1); (k2, v2)] = [v1; v2]
               \/ JsObject.values [(k1, v1); (k2, v2)] = [v2; v1])
    by exact Hp.
  unfold autoReleaseCheck.
  rewrite JsObjectFacts.keys_length. simpl Nat.eqb. cbv iota.
  destruct Hv as [-> | ->]; simpl; [reflexivity |].
  destruct (choice v1), (choice v2); reflexivity.
Qed.

Lemma buildVoteMap_pair (a b : Vote) :
  userId a <> "__proto__" -> userId b <> "__proto__" ->
  userId a <> userId b ->
  buildVoteMap [a; b] = [(userId a, a); (userId b, b)].
Proof.
  intros Ha Hb Hab. unfold buildVoteMap. simpl. rewrite !vote_copy.
  unfold JsObject.set.
  apply String.eqb_neq in Ha, Hb. rewrite Ha, Hb. simpl.
  assert (E : String.eqb (userId b) (userId a) = false).
  { apply String.eqb_neq. congruence. }
  rewrite E. reflexivity.
Qed.

(** X3 — The order of the answer does not matter. When the server answers
    the votes of two different users, the panel's agreement test is the
    equality of their two choices, in whichever order the two votes are
    listed (and whichever of the two keys the object enumerates first). *)
Theorem agreement_ignores_answer_order (a b : Vote) :
  userId a <> "__proto__" -> userId b <> "__proto__" ->
  userId a <> userId b ->
  autoReleaseCheck (buildVoteMap [a; b]) = Choice_eqb (choice a) (choice b)
  /\ autoReleaseCheck (buildVoteMap [b; a]) = Choice_eqb (choice a) (choice b).
Proof.
  intros Ha Hb Hab. split.
  - rewrite (buildVoteMap_pair a b Ha Hb Hab). apply autoReleaseCheck_pair.
  - rewrite (buildVoteMap_pair b a Hb Ha (not_eq_sym Hab)).
    rewrite autoReleaseCheck_pair.
    destruct (choice a), (choice b); reflexivity.
Qed.

Lemma agreement_ignores_answer_order_witness :
  autoReleaseCheck
    (buildVoteMap [Samples.voteOf "7" challenged; Samples.voteOf "12" challenged])
  = true
  /\ autoReleaseCheck
       (buildVoteMap [Samples.voteOf "12" challenged; Samples.voteOf "7" challenged])
     = true.
Proof.
  apply (agreement_ignores_answer_order
           (Samples.voteOf "7" challenged) (Samples.voteOf "12" challenged));
    simpl; discriminate.
Defined.

(** X4 — Auto-release needs two different voters. When a votes answer
    brings the status to ['auto-released'], the answer contains votes of two
    different users whose choices are equal; repeated votes of one user
    never count as two. *)
Theorem auto_release_needs_two_voters (answer : FetchAnswer (list Vote))
        (s : PanelState) :
  status s <> Some st_auto_released ->
  status (stateOf (fetchVotes answer s)) = Some st_auto_released ->
  exists data a b,
    answer = FetchOk data /\ In a data /\ In b data /\
    userId a <> userId b /\ choice a = choice b.
Proof.
  intros Hs H. rewrite fetchVotes_run in H.
  destruct answer as [| |data]; simpl in H; try contradiction.
  exists data.
  destruct (autoReleaseCheck (buildVoteMap data)) eqn:E;
    [| simpl in H; contradiction].
  destruct (buildVoteMap_WellKeyed data) as [Hnd Hkeys].
  pose proof (buildVoteMap_from data) as Hfrom.
  pose proof (proj1 (autoReleaseCheck_TwoEqualVotes _) E) as [Hlen _].
  destruct (buildVoteMap data) as [|[k1 w1] [|[k2 w2] [|x l]]];
    try discriminate Hlen.
  assert (Hc : Choice_eqb (choice w1) (choice w2) = true).
  { rewrite <- (autoReleaseCheck_pair k1 k2). exact E. }
  exists w1, w2. split; [reflexivity |].
  split; [apply (Hfrom k1); left; reflexivity |].
  split; [apply (Hfrom k2); right; left; reflexivity |].
  split.
  - destruct (Hkeys k1 w1 (or_introl eq_refl)) as [-> _].
    destruct (Hkeys k2 w2 (or_intror (or_introl eq_refl))) as [-> _].
    simpl in Hnd. inversion Hnd as [|x l Hnotin _]; subst.
    intros Heq. apply Hnotin. left. symmetry. exact Heq.
  - apply Choice_eqb_eq, Hc.
Qed.

Lemma auto_release_needs_two_voters_witness :
  exists data a b,
    FetchOk [Samples.voteOf "u1" challenger; Samples.voteOf "u2" challenger]
    = FetchOk data
    /\ In a data /\ In b data /\ userId a <> userId b /\ choice a = choice b.
Proof.
  apply (auto_release_needs_two_voters
           (FetchOk [Samples.voteOf "u1" challenger;
                     Samples.voteOf "u2" challenger])
           initialState).
  - simpl. discriminate.
  - reflexivity.
Defined.

(** ** What the handlers do with answers *)

Lemma handleFile_completes file uploadAnswer digestAnswer registerAnswer
      proofsAnswer s :
  fst (fst (handleFile file uploadAnswer digestAnswer registerAnswer
                       proofsAnswer s)) = Normal tt.
Proof.
  destruct uploadAnswer as [| |uploadJson]; try reflexivity.
  destruct digestAnswer as [hashArray|]; try reflexivity.
  destruct registerAnswer as [proof|]; try reflexivity.
  destruct proofsAnswer as [| |data]; reflexivity.
Qed.

(** X5 — No error escapes. Whatever the server and the platform answer
    (a thrown request, a response that is not ok, a rejected call), every
    event of the panel completes normally: each failure is caught by its
    handler. *)
Theorem every_event_completes (e : Event) (s : PanelState) :
  fst (fst (step e s)) = Normal tt.
Proof.
  destruct e; unfold step.
  - rewrite fetchProofs_run. destruct answer; reflexivity.
  - rewrite fetchVotes_run. destruct answer; reflexivity.
  - rewrite countdownTick_run. reflexivity.
  - destruct (nth_error _ _); reflexivity.
  - destruct (uploadDisabled (render s)); [reflexivity |].
    apply handleFile_completes.
  - reflexivity.
  - destruct (voteButtonsDisabled (render s)) as [[|]|]; try reflexivity.
    rewrite handleVote_run.
    destruct (selectedProof s); [| reflexivity].
    destruct voteAnswer; reflexivity.
  - destruct (disputeMenu (render s)) as [menu|]; [| reflexivity].
    destruct (chevronButton menu); reflexivity.
  - destruct (disputeMenu (render s)) as [menu|]; [| reflexivity].
    destruct (openDisputeButton menu) as [[|]|]; try reflexivity.
    rewrite handleOpenDispute_run. destruct disputeAnswer; reflexivity.
Qed.

(** X6 — A votes fetch never takes back an auto-release. Once the status is
    ['auto-released'], it is still so after any votes answer, and the
    "Released" badge stays, even when the votes now held are two votes that
    differ, for which the panel reports "Votes Disagree - Dispute Opened" at
    the same time; the votes held are replaced by the answer as a whole. *)
Theorem votes_fetch_keeps_auto_release (answer : FetchAnswer (list Vote))
        (s : PanelState) :
  status s = Some st_auto_released ->
  status (stateOf (fetchVotes answer s)) = Some st_auto_released
  /\ headerBadges (render (stateOf (fetchVotes answer s))) = [BadgeReleased]
  /\ (forall data, answer = FetchOk data ->
        votes (stateOf (fetchVotes answer s)) = buildVoteMap data)
  /\ (TwoDifferingVotes (votes (stateOf (fetchVotes answer s))) ->
      voteResult (render (stateOf (fetchVotes answer s)))
      = Some VotesDisagreeDisputeOpened).
Proof.
  intros Hs.
  assert (Hst : status (stateOf (fetchVotes answer s)) = Some st_auto_released).
  { rewrite fetchVotes_run. destruct answer; simpl; auto.
    destruct (autoReleaseCheck (buildVoteMap json)); simpl; auto. }
  split; [exact Hst |]. split; [| split].
  - unfold render; simpl. rewrite Hst. reflexivity.
  - intros data ->. rewrite fetchVotes_run. simpl.
    destruct (autoReleaseCheck (buildVoteMap data)); reflexivity.
  - intros Hd. apply dispute_box_condition in Hd.
    apply andb_true_iff in Hd. destruct Hd as [Hb Hm].
    apply negb_true_iff in Hm.
    unfold render; simpl. rewrite Hb, Hm. reflexivity.
Qed.

Lemma votes_fetch_keeps_auto_release_witness :
  status Samples.afterBothAgree = Some st_auto_released
  /\ status (stateOf (fetchVotes
                        (FetchOk [Samples.voteOf "u1" challenger;
                                  Samples.voteOf "u2" challenged])
                        Samples.afterBothAgree))
     = Some st_auto_released.
Proof.
  split; [reflexivity |].
  exact (proj1 (votes_fetch_keeps_auto_release
                  (FetchOk [Samples.voteOf "u1" challenger;
                            Samples.voteOf "u2" challenged])
                  Samples.afterBothAgree eq_refl)).
Defined.

(** X7 — An upload always ends settled. Whatever is answered, [handleFile]
    ends with [uploading] off and leaves the votes, the user's own vote, the
    countdown and the dispute box alone. If the upload, the hashing and the
    registration all succeed, the registered proof is selected, the status
    is ['voting'], the progress is 100, no alert is shown, and the proof
    list is the refetched one (or the old one, if the refetch failed). If
    any of the three fails, "Upload failed" is alerted, the status is
    [null], and selection and proof list are as before. *)
Theorem upload_ends_settled file uploadAnswer digestAnswer registerAnswer
        proofsAnswer (s : PanelState) :
  let r := handleFile file uploadAnswer digestAnswer registerAnswer
                      proofsAnswer s in
  uploading (stateOf r) = false
  /\ votes (stateOf r) = votes s
  /\ myVote (stateOf r) = myVote s
  /\ countdownTime (stateOf r) = countdownTime s
  /\ showDisputeMenu (stateOf r) = showDisputeMenu s
  /\ (forall uploadJson hashArray proof,
        uploadAnswer = FetchOk uploadJson ->
        digestAnswer = Normal hashArray ->
        registerAnswer = Normal proof ->
        status (stateOf r) = Some st_voting
        /\ selectedProof (stateOf r) = Some proof
        /\ progress (stateOf r) = 100%Z
        /\ proofs (stateOf r)
           = match proofsAnswer with
             | FetchOk data => orEmpty data
             | _ => proofs s
             end
        /\ (forall message, ~ In (Alert message) (logOf r)))
  /\ (uploadAnswer = FetchThrows \/ uploadAnswer = FetchNotOk
      \/ (exists message, digestAnswer = Throw message)
      \/ (exists message, registerAnswer = Throw message) ->
      status (stateOf r) = None
      /\ selectedProof (stateOf r) = selectedProof s
      /\ proofs (stateOf r) = proofs s
      /\ In (Alert "Upload failed") (logOf r)
      /\ ~ In GetProofs (logOf r)).
Proof.
  intros r. subst r.
  split; [| split; [| split; [| split; [| split; [| split]]]]].
  - destruct uploadAnswer as [| |uploadJson]; try reflexivity.
    destruct digestAnswer as [hashArray|]; try reflexivity.
    destruct registerAnswer as [proof|]; try reflexivity.
    destruct proofsAnswer; reflexivity.
  - apply handleFile_votes.
  - destruct uploadAnswer as [| |uploadJson]; try reflexivity.
    destruct digestAnswer as [hashArray|]; try reflexivity.
    destruct registerAnswer as [proof|]; try reflexivity.
    destruct proofsAnswer; reflexivity.
  - destruct uploadAnswer as [| |uploadJson]; try reflexivity.
    destruct digestAnswer as [hashArray|]; try reflexivity.
    destruct registerAnswer as [proof|]; try reflexivity.
    destruct proofsAnswer; reflexivity.
  - destruct uploadAnswer as [| |uploadJson]; try reflexivity.
    destruct digestAnswer as [hashArray|]; try reflexivity.
    destruct registerAnswer as [proof|]; try reflexivity.
    destruct proofsAnswer; reflexivity.
  - intros uploadJson hashArray proof -> -> ->.
    destruct proofsAnswer as [| |data]; repeat split;
      intros message H; scan_log H.
  - intros [-> | [-> | [[message ->] | [message ->]]]].
    + repeat split; simpl; try tauto. intros H; scan_log H.
    + repeat split; simpl; try tauto. intros H; scan_log H.
    + destruct uploadAnswer as [| |uploadJson];
        repeat split; simpl; try tauto; intros H; scan_log H.
    + destruct uploadAnswer as [| |uploadJson];
        [| | destruct digestAnswer as [hashArray|]];
        repeat split; simpl; try tauto; intros H; scan_log H.
Qed.

Lemma upload_ends_settled_witness :
  status (stateOf (handleFile [x74; x65; x73; x74]
                              (FetchOk (mkUploadJson "/uploads/a.png"))
                              (Normal Samples.digestA)
                              (Normal Samples.proofA)
                              FetchNotOk initialState))
  = Some st_voting.
Proof.
  exact (proj1 (proj1 (proj2 (proj2 (proj2 (proj2 (proj2
           (upload_ends_settled [x74; x65; x73; x74]
              (FetchOk (mkUploadJson "/uploads/a.png"))
              (Normal Samples.digestA) (Normal Samples.proofA)
              FetchNotOk initialState))))))
           _ _ _ eq_refl eq_refl eq_refl)).
Defined.

(** X8 — The stages of an upload follow one another. The upload request of
    the file comes first. A proof is registered only after the upload was
    answered and the same file was hashed, and it carries the URL that the
    upload answered; the proof list is refetched only after a registration
    that succeeded. A stage that fails sends nothing further. *)
Theorem upload_stages_in_order file uploadAnswer digestAnswer registerAnswer
        proofsAnswer (s : PanelState) :
  let log := logOf (handleFile file uploadAnswer digestAnswer registerAnswer
                               proofsAnswer s) in
  (exists rest, log = PostUpload file :: rest)
  /\ (forall uri h,
        In (PostProof uri h) log ->
        exists uploadJson hashArray rest,
          uploadAnswer = FetchOk uploadJson
          /\ digestAnswer = Normal hashArray
          /\ uri = imageUrl uploadJson
          /\ log = PostUpload file :: DigestSha256 file :: PostProof uri h
                     :: rest)
  /\ (forall data, In (DigestSha256 data) log ->
        data = file /\ exists uploadJson, uploadAnswer = FetchOk uploadJson)
  /\ (In GetProofs log -> exists proof, registerAnswer = Normal proof).
Proof.
  intros log. subst log.
  destruct uploadAnswer as [| |uploadJson].
  - split; [eexists; reflexivity |].
    repeat split; intros; match goal with H : In _ _ |- _ => scan_log H end.
  - split; [eexists; reflexivity |].
    repeat split; intros; match goal with H : In _ _ |- _ => scan_log H end.
  - destruct digestAnswer as [hashArray|].
    + destruct registerAnswer as [proof|].
      * destruct proofsAnswer as [| |data];
          (split; [eexists; reflexivity |]);
          (split; [intros uri h H; scan_log H; injection H as <- <-;
                   exists uploadJson, hashArray; eexists;
                   repeat split; reflexivity |]);
          (split; [intros d H; scan_log H; injection H as <-;
                   split; [reflexivity | eexists; reflexivity] |]);
          intros _; eexists; reflexivity.
      * split; [eexists; reflexivity |].
        split; [intros uri h H; scan_log H; injection H as <- <-;
                exists uploadJson, hashArray; eexists;
                repeat split; reflexivity |].
        split; [intros d H; scan_log H; injection H as <-;
                split; [reflexivity | eexists; reflexivity] |].
        intros H; scan_log H.
    + split; [eexists; reflexivity |].
      split; [intros uri h H; scan_log H |].
      split; [intros d H; scan_log H; injection H as <-;
              split; [reflexivity | eexists; reflexivity] |].
      intros H; scan_log H.
Qed.

Lemma handleFile_names_its_file file uploadAnswer digestAnswer registerAnswer
      proofsAnswer (s : PanelState) data :
  In (PostUpload data)
     (logOf (handleFile file uploadAnswer digestAnswer registerAnswer
                        proofsAnswer s))
  \/ In (DigestSha256 data)
        (logOf (handleFile file uploadAnswer digestAnswer registerAnswer
                           proofsAnswer s)) ->
  data = file.
Proof.
  intros H.
  destruct uploadAnswer as [| |uploadJson];
    [destruct H as [H | H]; scan_log H; injection H as <-; reflexivity .. |].
  destruct digestAnswer as [hashArray|];
    [| destruct H as [H | H]; scan_log H; injection H as <-; reflexivity].
  destruct registerAnswer as [proof|];
    [destruct proofsAnswer |];
    destruct H as [H | H]; scan_log H; injection H as <-; reflexivity.
Qed.

(** X9 — Only the first chosen file is uploaded. When the file picker
    reports no files, nothing is sent and nothing changes; when it reports
    several, every upload and every hashing in the log is of the first
    one. *)
Theorem picker_uploads_first_file (files : option (list (list byte)))
        uploadAnswer digestAnswer registerAnswer proofsAnswer (s : PanelState) :
  let r := openFilePicker files uploadAnswer digestAnswer registerAnswer
                          proofsAnswer s in
  ((files = None \/ files = Some []) -> r = (Normal tt, s, []))
  /\ (forall data,
        In (PostUpload data) (logOf r) \/ In (DigestSha256 data) (logOf r) ->
        exists others, files = Some (data :: others)).
Proof.
  intros r. subst r. split.
  - intros [-> | ->]; reflexivity.
  - intros data H.
    destruct files as [[|file others]|];
      [destruct H as [H | H]; scan_log H | |
       destruct H as [H | H]; scan_log H].
    exists others. unfold openFilePicker in H.
    apply handleFile_names_its_file in H. subst data. reflexivity.
Qed.

(** ** What is only done on the user's action *)

Lemma handleFile_frame file uploadAnswer digestAnswer registerAnswer
      proofsAnswer (s : PanelState) :
  votes (stateOf (handleFile file uploadAnswer digestAnswer registerAnswer
                             proofsAnswer s)) = votes s
  /\ myVote (stateOf (handleFile file uploadAnswer digestAnswer registerAnswer
                                 proofsAnswer s)) = myVote s.
Proof.
  destruct uploadAnswer as [| |uploadJson]; simpl; auto.
  destruct digestAnswer as [hashArray|]; simpl; auto.
  destruct registerAnswer as [proof|]; simpl; auto.
  destruct proofsAnswer as [| |data]; simpl; auto.
Qed.

Lemma handleVote_accepted (c : Choice) votesAnswer (s : PanelState) (p : Proof) :
  selectedProof s = Some p ->
  myVote (stateOf (handleVote c (Normal tt) votesAnswer s)) = Some c
  /\ logOf (handleVote c (Normal tt) votesAnswer s)
     = PostVote c (proof_hash p)
         :: logOf (fetchVotes votesAnswer (setMyVote (Some c) s)).
Proof.
  intros Hp. rewrite handleVote_run, Hp. split; [| reflexivity].
  change (myVote (stateOf (fetchVotes votesAnswer (setMyVote (Some c) s)))
          = Some c).
  destruct (fetchVotes_keeps votesAnswer (setMyVote (Some c) s))
    as (_ & _ & ->).
  reflexivity.
Qed.

Lemma step_myVote (e : Event) (s : PanelState) (c : Choice) :
  myVote (stateOf (step e s)) = Some c ->
  myVote s = Some c
  \/ exists h, logOf (step e s) = PostVote c h :: skipn 1 (logOf (step e s))
               /\ exists votesAnswer, e = EvVote c (Normal tt) votesAnswer.
Proof.
  destruct e; unfold step.
  - rewrite fetchProofs_run. destruct answer; simpl; auto.
  - destruct (fetchVotes_keeps answer s) as (_ & _ & ->). auto.
  - rewrite countdownTick_run. simpl. auto.
  - destruct (nth_error _ _); simpl; auto.
  - destruct (uploadDisabled (render s)); [simpl; auto |].
    destruct (handleFile_frame file uploadAnswer digestAnswer
                registerAnswer proofsAnswer s) as (_ & ->). auto.
  - simpl. auto.
  - destruct (voteButtonsDisabled (render s)) as [[|]|]; simpl; auto.
    destruct (selectedProof s) as [p|] eqn:Ep;
      [| rewrite handleVote_run, Ep; simpl; auto].
    destruct voteAnswer as [[]|];
      [| rewrite handleVote_run, Ep; simpl; auto].
    destruct (handleVote_accepted choice0 votesAnswer s p Ep) as [-> Hlog].
    intros H. injection H as ->. right. exists (proof_hash p).
    split; [rewrite Hlog; reflexivity | exists votesAnswer; reflexivity].
  - destruct (disputeMenu (render s)) as [menu|]; simpl; auto.
    destruct (chevronButton menu); simpl; auto.
  - destruct (disputeMenu (render s)) as [menu|]; simpl; auto.
    destruct (openDisputeButton menu) as [[|]|]; simpl; auto.
    rewrite handleOpenDispute_run. destruct disputeAnswer; simpl; auto.
Qed.

Lemma run_myVote (es : list Event) (s : PanelState) (c : Choice) :
  myVote (fst (run es s)) = Some c ->
  myVote s = Some c \/ exists h, In (PostVote c h) (snd (run es s)).
Proof.
  revert s. induction es as [|e es IH]; intros s H; [left; exact H |].
  rewrite run_cons in H |- *. cbn [fst snd] in *.
  apply IH in H. destruct H as [H | [h H]].
  - apply step_myVote in H. destruct H as [H | (h & Hlog & _)]; [auto |].
    right. exists h. apply in_or_app. left. rewrite Hlog. left. reflexivity.
  - right. exists h. apply in_or_app. right. exact H.
Qed.

(** X10 — The user's own vote is an accepted vote. In every state the panel
    can reach, [myVote] is empty or holds a choice for which a vote request
    was sent earlier; and a vote request that the server accepts always
    leaves [myVote] at the choice just sent, whatever the refetch of the
    votes answers. *)
Theorem own_vote_was_sent :
  (forall (es : list Event) (c : Choice),
     myVote (fst (run es initialState)) = Some c ->
     exists h, In (PostVote c h) (snd (run es initialState)))
  /\ (forall (s : PanelState) (p : Proof) (c : Choice) votesAnswer,
        selectedProof s = Some p ->
        myVote (stateOf (handleVote c (Normal tt) votesAnswer s)) = Some c).
Proof.
  split.
  - intros es c H. apply run_myVote in H.
    destruct H as [H | H]; [discriminate H | exact H].
  - intros s p c votesAnswer Hp.
    apply (handleVote_accepted c votesAnswer s p Hp).
Qed.

Lemma own_vote_was_sent_witness :
  exists h, In (PostVote challenger h) (snd (run Samples.votedOnce initialState)).
Proof.
  exact (proj1 own_vote_was_sent Samples.votedOnce challenger eq_refl).
Defined.

Lemma messageOr_nonempty (message : option string) (fallback : string) :
  fallback <> "" -> messageOr message fallback <> "".
Proof.
  intros Hf. unfold messageOr.
  destruct message as [m|]; [| exact Hf].
  destruct (String.eqb m "") eqn:E; [exact Hf |].
  apply String.eqb_neq, E.
Qed.

(** X11 — A failed dispute request changes nothing. When the request to
    open a dispute is sent and rejected, the panel is left exactly as it was
    (so the same click sends the request again) and exactly one alert is
    shown after the request: its text is the error's message, or "Failed to
    open dispute" when the error has no message or an empty one, and is
    never empty. *)
Theorem failed_dispute_changes_nothing (message : option string)
        (s : PanelState) :
  handleOpenDispute (Throw message) s
  = (Normal tt, s,
     [PostDispute; Alert (messageOr message "Failed to open dispute")])
  /\ (TwoDifferingVotes (votes s) ->
      showDisputeMenu s = true ->
      status s <> Some st_disputed ->
      step (EvOpenDispute (Throw message)) s
      = (Normal tt, s,
         [PostDispute; Alert (messageOr message "Failed to open dispute")]))
  /\ messageOr message "Failed to open dispute" <> ""
  /\ (forall m, message = Some m -> m <> "" ->
        messageOr message "Failed to open dispute" = m)
  /\ (message = None \/ message = Some "" ->
      messageOr message "Failed to open dispute" = "Failed to open dispute").
Proof.
  split; [| split; [| split; [| split]]].
  - apply handleOpenDispute_run.
  - intros Hd Hm Hst. apply dispute_box_condition in Hd.
    rewrite step_openDispute, Hd, Hm.
    destruct (status s) as [[]|]; try apply handleOpenDispute_run.
    contradiction Hst. reflexivity.
  - apply messageOr_nonempty. discriminate.
  - intros m -> Hm. simpl. apply String.eqb_neq in Hm. rewrite Hm. reflexivity.
  - intros [-> | ->]; reflexivity.
Qed.

Lemma failed_dispute_changes_nothing_witness :
  step (EvOpenDispute (Throw (Some "Challenge is locked")))
       Samples.afterBothDisagree
  = (Normal tt, Samples.afterBothDisagree,
     [PostDispute; Alert "Challenge is locked"]).
Proof.
  apply (proj1 (proj2 (failed_dispute_changes_nothing
                         (Some "Challenge is locked")
                         Samples.afterBothDisagree))).
  - split; [reflexivity |].
    exists (Samples.voteOf "u1" challenger), (Samples.voteOf "u2" challenged).
    split; [reflexivity | discriminate].
  - reflexivity.
  - vm_compute. discriminate.
Defined.

Lemma disputed_blocks_box_button (s : PanelState) :
  status s = Some st_disputed ->
  bothVoted s && negb (votesMatch s) && showDisputeMenu s
    && negb (status_is (status s) st_disputed) = false.
Proof. intros ->. simpl. apply andb_false_r. Qed.

(** X12 — A disputed panel ignores the clicks. A click made while the
    status is ['disputed'] on "Upload Proof", on a vote button or on "Open
    Dispute" starts nothing: no request is sent and no cell changes, so the
    dispute request is not sent a second time by clicking. (A handler that
    was started before the status became ['disputed'] is not concerned.) *)
Theorem disputed_panel_ignores_clicks (s : PanelState) :
  status s = Some st_disputed ->
  (forall file uploadAnswer digestAnswer registerAnswer proofsAnswer,
     step (EvUpload file uploadAnswer digestAnswer registerAnswer
                    proofsAnswer) s
     = (Normal tt, s, []))
  /\ (forall c voteAnswer votesAnswer,
        step (EvVote c voteAnswer votesAnswer) s = (Normal tt, s, []))
  /\ (forall disputeAnswer,
        step (EvOpenDispute disputeAnswer) s = (Normal tt, s, [])).
Proof.
  intros Hs.
  destruct (settled_controls_locked s (or_intror Hs)) as (_ & _ & Hup & Hvote).
  split; [exact Hup |]. split; [exact Hvote |].
  intros disputeAnswer.
  rewrite step_openDispute, (disputed_blocks_box_button s Hs). reflexivity.
Qed.

Lemma disputed_panel_ignores_clicks_witness :
  step (EvOpenDispute (Normal tt))
       (fst (run openDisputeClicks Samples.afterBothDisagree))
  = (Normal tt, fst (run openDisputeClicks Samples.afterBothDisagree), []).
Proof.
  apply (disputed_panel_ignores_clicks
           (fst (run openDisputeClicks Samples.afterBothDisagree))).
  reflexivity.
Defined.

Lemma step_never_released (e : Event) (s : PanelState) :
  status s <> Some st_released ->
  status (stateOf (step e s)) <> Some st_released.
Proof.
  intros Hs. destruct e; unfold step.
  - rewrite fetchProofs_run. destruct answer; simpl; auto.
  - rewrite fetchVotes_run. destruct answer; simpl; auto.
    destruct (autoReleaseCheck (buildVoteMap json)); simpl; [discriminate | auto].
  - rewrite countdownTick_run. simpl. auto.
  - destruct (nth_error _ _); simpl; auto.
  - destruct (uploadDisabled (render s)); [simpl; auto |].
    destruct (handleFile_end file uploadAnswer digestAnswer registerAnswer
                proofsAnswer s)
      as [(-> & _) | (j & a & p & _ & _ & _ & -> & _)]; discriminate.
  - simpl. auto.
  - destruct (voteButtonsDisabled (render s)) as [[|]|]; simpl; auto.
    rewrite handleVote_run.
    destruct (selectedProof s); simpl; auto.
    destruct voteAnswer; simpl; auto.
    rewrite fetchVotes_run. destruct votesAnswer; simpl; auto.
    destruct (autoReleaseCheck (buildVoteMap json)); simpl; [discriminate | auto].
  - destruct (disputeMenu (render s)) as [menu|]; simpl; auto.
    destruct (chevronButton menu); simpl; auto.
  - destruct (disputeMenu (render s)) as [menu|]; simpl; auto.
    destruct (openDisputeButton menu) as [[|]|]; simpl; auto.
    rewrite handleOpenDispute_run. destruct disputeAnswer; simpl; auto.
    discriminate.
Qed.

(** X13 — The status ['released'] is never set. No event brings the status
    to ['released'] from another value, so no state the panel can reach has
    it: the tests [status === 'released'] of the upload and vote buttons are
    never true. *)
Theorem released_is_never_reached :
  (forall (e : Event) (s : PanelState),
     status s <> Some st_released ->
     status (stateOf (step e s)) <> Some st_released)
  /\ (forall es : list Event,
        status (fst (run es initialState)) <> Some st_released
        /\ status_is (status (fst (run es initialState))) st_released = false).
Proof.
  split; [exact step_never_released |].
  assert (Hrun : forall es s, status s <> Some st_released ->
                              status (fst (run es s)) <> Some st_released).
  { induction es as [|e es IH]; intros s Hs; [exact Hs |].
    rewrite run_cons. cbn [fst]. apply IH, step_never_released, Hs. }
  intros es.
  assert (H : status (fst (run es initialState)) <> Some st_released)
    by (apply Hrun; discriminate).
  split; [exact H |].
  destruct (status (fst (run es initialState))) as [[]|]; try reflexivity.
  contradiction H. reflexivity.
Qed.

(** ** The countdown and its text *)

(** X14 — The timer stops at the deadline. A tick changes only the
    countdown cell; for a valid due date it clears the interval exactly when
    the due time is not after the current time. For an invalid due date the
    remaining time is NaN on every tick: the interval is never cleared and
    the countdown reads "NaNh NaNm NaNs". *)
Theorem timer_stops_at_deadline (now : Z) (s : PanelState) :
  (forall due,
     stateOf (step (EvTick now due) s)
     = setCountdownTime (Some (remaining now due)) s)
  /\ (forall dueAt,
        In ClearInterval (logOf (step (EvTick now (Num dueAt)) s))
        <-> (dueAt <= now)%Z)
  /\ logOf (step (EvTick now NaN) s) = []
  /\ countdownText (render (stateOf (step (EvTick now NaN) s)))
     = "NaNh NaNm NaNs".
Proof.
  split; [| split; [| split]].
  - intros due. unfold step. rewrite countdownTick_run. reflexivity.
  - intros dueAt. unfold step. rewrite countdownTick_run, isZero_remaining.
    destruct (dueAt <=? now)%Z eqn:E; simpl.
    + apply Z.leb_le in E. split; [lia | auto].
    + apply Z.leb_gt in E. split; [intros [] | lia].
  - reflexivity.
  - reflexivity.
Qed.

(** X15 — What the countdown text says. For a remaining time above zero the
    text is "<h>h <m>m <s>s" with minutes and seconds below 60 and
    h*3600 + m*60 + s equal to the whole seconds of the remaining time, so
    the last second before the deadline reads "0h 0m 0s", not "Expired";
    for zero, a negative value or no value the text is "Expired". *)
Theorem countdown_text_splits_seconds (ms : Z) :
  ((0 < ms)%Z ->
   exists h m sec : Z,
     formatCountdown (Some (Num ms))
     = (numberToString h ++ "h " ++ numberToString m ++ "m "
          ++ numberToString sec ++ "s")%string
     /\ (0 <= h)%Z /\ (0 <= m < 60)%Z /\ (0 <= sec < 60)%Z
     /\ (h * 3600 + m * 60 + sec = ms / 1000)%Z
     /\ (1000 * (ms / 1000) <= ms < 1000 * (ms / 1000) + 1000)%Z)
  /\ ((0 < ms < 1000)%Z -> formatCountdown (Some (Num ms)) = "0h 0m 0s")
  /\ ((ms <= 0)%Z -> formatCountdown (Some (Num ms)) = "Expired")
  /\ formatCountdown None = "Expired".
Proof.
  split; [| split; [| split]].
  - intros Hpos.
    exists (ms / 1000 / 3600)%Z, ((ms / 1000) mod 3600 / 60)%Z,
           ((ms / 1000) mod 60)%Z.
    split.
    + unfold formatCountdown.
      destruct (ms <=? 0)%Z eqn:E; [apply Z.leb_le in E; lia | reflexivity].
    + Z.to_euclidean_division_equations. lia.
  - intros Hsub. unfold formatCountdown.
    destruct (ms <=? 0)%Z eqn:E; [apply Z.leb_le in E; lia |].
    rewrite (Z.div_small ms 1000) by lia. reflexivity.
  - intros Hle. unfold formatCountdown.
    destruct (ms <=? 0)%Z eqn:E; [reflexivity | apply Z.leb_gt in E; lia].
  - reflexivity.
Qed.

Lemma countdown_text_splits_seconds_witness :
  formatCountdown (Some (Num 999)) = "0h 0m 0s".
Proof.
  apply (proj1 (proj2 (countdown_text_splits_seconds 999))). lia.
Defined.

(** ** Reading the proof hash back *)

Lemma hexDecode_byteHex (b : byte) (rest : string) :
  hexDecode (byteHex b ++ rest)
  = match hexDecode rest with
    | Some bytes => Some (b :: bytes)
    | None => None
    end.
Proof. destruct b; reflexivity. Qed.

Lemma hexDecode_hashHex (hashArray : list byte) :
  hexDecode (hashHex hashArray) = Some hashArray.
Proof.
  unfold hashHex, join.
  induction hashArray as [|b l IH]; simpl; [reflexivity |].
  rewrite hexDecode_byteHex, IH. reflexivity.
Qed.

(** X16 — The hash text determines the digest. Reading the text produced
    for a digest two hexadecimal digits at a time gives back the digest's
    bytes, so two different digests never yield the same proof hash. *)
Theorem hash_text_determines_digest :
  (forall hashArray : list byte, hexDecode (hashHex hashArray) = Some hashArray)
  /\ (forall a b : list byte, hashHex a = hashHex b -> a = b).
Proof.
  split; [exact hexDecode_hashHex |].
  intros a b H.
  assert (Hd : hexDecode (hashHex a) = hexDecode (hashHex b)) by (rewrite H; reflexivity).
  rewrite !hexDecode_hashHex in Hd. injection Hd as ->. reflexivity.
Qed.

(** ** What the panel shows of an outcome *)

(** X17 — Result line, release notice and dispute box agree. Without
    exactly two votes none of the three is shown. With two votes of equal
    choice the line reads "Votes Match - Funds Released" and the release
    notice is shown without the dispute box; with two votes that differ the
    line reads "Votes Disagree - Dispute Opened" and the dispute box is
    shown without the release notice. *)
Theorem outcome_views_agree (s : PanelState) :
  match voteResult (render s) with
  | None =>
      List.length (votes s) <> 2
      /\ autoReleaseInfo (render s) = false
      /\ disputeMenu (render s) = None
  | Some VotesMatchFundsReleased =>
      TwoEqualVotes (votes s)
      /\ autoReleaseInfo (render s) = true
      /\ disputeMenu (render s) = None
  | Some VotesDisagreeDisputeOpened =>
      TwoDifferingVotes (votes s)
      /\ autoReleaseInfo (render s) = false
      /\ disputeMenu (render s) <> None
  end.
Proof.
  unfold render; simpl.
  destruct (bothVoted s) eqn:Eb.
  - destruct (votesMatch s) eqn:Em; simpl.
    + split; [| split; reflexivity].
      apply autoReleaseCheck_TwoEqualVotes.
      rewrite autoReleaseCheck_votesMatch. exact Em.
    + split; [| split; [reflexivity | discriminate]].
      apply dispute_box_condition. rewrite Eb, Em. reflexivity.
  - simpl. split.
    + unfold bothVoted in Eb. rewrite JsObjectFacts.keys_length in Eb.
      apply Nat.eqb_neq, Eb.
    + unfold votesMatch. rewrite Eb. split; reflexivity.
Qed.

(** ** The accept dialog *)

Module AcceptChallengeModalFacts.
Import AcceptChallengeModal.

Lemma orElse_nonempty (x : option string) (fallback : string) :
  fallback <> "" -> orElse x fallback <> "".
Proof. apply messageOr_nonempty. Qed.

Lemma orElse_truthy (x : option string) (fallback : string) :
  truthy x = true -> x = Some (orElse x fallback) /\ orElse x fallback <> "".
Proof.
  unfold truthy, orElse, messageOr. destruct x as [m|]; [| discriminate].
  intros H. apply negb_true_iff in H. rewrite H.
  split; [reflexivity | apply String.eqb_neq, H].
Qed.

(** X18 — Confirming closes the dialog only on success. [onAccept] is
    called exactly when it was passed, and [onClose] exactly when accepting
    did not fail. If nothing failed the error is cleared, whatever it was
    before. If accepting (or closing) failed, the error becomes the failure's
    message, or "Failed to accept challenge" when it has none, a destructive
    toast "Error" shows the same text, and that text is never empty. *)
Theorem confirm_closes_only_on_success (hasOnAccept : bool)
        (acceptAnswer closeAnswer : Completion unit) (error : option string) :
  let r := handleConfirm hasOnAccept acceptAnswer closeAnswer error in
  (In CallOnAccept (snd r) <-> hasOnAccept = true)
  /\ (In CallOnClose (snd r) <->
      hasOnAccept = false \/ exists u, acceptAnswer = Normal u)
  /\ (fst r = None <->
      (hasOnAccept = false \/ exists u, acceptAnswer = Normal u)
      /\ exists u, closeAnswer = Normal u)
  /\ (forall m, fst r = Some m ->
        m <> "" /\ In (Toast "Error" m "destructive") (snd r)
        /\ exists message,
             m = orElse message "Failed to accept challenge"
             /\ (acceptAnswer = Throw message \/ closeAnswer = Throw message)).
Proof.
  intros r. subst r. unfold handleConfirm, confirmFailed.
  assert (Hne : forall message,
             orElse message "Failed to accept challenge" <> "")
    by (intros; apply orElse_nonempty; discriminate).
  destruct hasOnAccept;
    [destruct acceptAnswer as [[]|am] |];
    destruct closeAnswer as [[]|cm]; simpl;
    (split; [| split; [| split]]);
    try (split; intros H;
         repeat match goal with
                | H : _ /\ _ |- _ => destruct H
                | H : _ \/ _ |- _ => destruct H
                | H : ex _ |- _ => destruct H
                | H : False |- _ => destruct H
                end;
         try discriminate; eauto 6; fail);
    intros m H; try discriminate H; injection H as <-;
    (split; [apply Hne |]);
    (split; [simpl; auto 6 |]);
    eexists; (split; [reflexivity | auto]).
Qed.

(** X19 — Cancel keeps the error, dismissing clears it. On a rendered, open
    dialog, dismissing it clears the error and calls [onClose] even while
    submitting. "Cancel" calls [onClose] and leaves the error in place, so
    the message of an earlier failure stays until the next confirm or
    dismissal; while submitting, "Cancel" and "Accept" do nothing at all. *)
Theorem cancel_keeps_error (p : Props) (error : option string) :
  isOpen p = true ->
  challenge p <> None ->
  step p (OpenChange false) error = (None, [CallOnClose])
  /\ step p (OpenChange true) error = (error, [])
  /\ (isSubmitting p = false ->
      step p ClickCancel error = (error, [CallOnClose]))
  /\ (isSubmitting p = true ->
      step p ClickCancel error = (error, [])
      /\ forall acceptAnswer closeAnswer,
           step p (ClickConfirm acceptAnswer closeAnswer) error = (error, [])).
Proof.
  intros Hopen Hch. unfold step, render.
  destruct (challenge p) as [ch|]; [| contradiction Hch; reflexivity].
  simpl. rewrite Hopen. simpl.
  split; [reflexivity |]. split; [reflexivity |]. split.
  - intros ->. reflexivity.
  - intros ->. split; [reflexivity |]. intros; reflexivity.
Qed.

Lemma cancel_keeps_error_witness :
  step (mkProps true (Some (mkChallenge "Chess" None)) true false)
       ClickCancel (Some "Insufficient balance")
  = (Some "Insufficient balance", [CallOnClose]).
Proof.
  apply (cancel_keeps_error
           (mkProps true (Some (mkChallenge "Chess" None)) true false)
           (Some "Insufficient balance")); [reflexivity | discriminate | reflexivity].
Defined.

(** X20 — The dialog shows no empty text. Nothing is rendered exactly when
    there is no challenge. Otherwise the name in the caption is the
    challenger's first name, else the username, else "another user", and is
    never empty; an avatar image is shown only with a non-empty source and
    alt text; and the error line never shows an empty message. *)
Theorem dialog_shows_no_empty_text (p : Props) (error : option string) :
  (render p error = None <-> challenge p = None)
  /\ forall v, render p error = Some v ->
       captionName v <> ""
       /\ (forall ch u, challenge p = Some ch -> challengerUser ch = Some u ->
             (truthy (firstName u) = true -> firstName u = Some (captionName v))
             /\ (truthy (firstName u) = false -> truthy (username u) = true ->
                 username u = Some (captionName v))
             /\ (truthy (firstName u) = false -> truthy (username u) = false ->
                 captionName v = "another user"))
       /\ (forall ch, challenge p = Some ch -> challengerUser ch = None ->
             captionName v = "another user")
       /\ (forall src alt, avatarImage v = Some (src, alt) ->
             src <> "" /\ alt <> "")
       /\ errorLine v <> Some "".
Proof.
  unfold render. destruct (challenge p) as [ch|].
  - split; [split; discriminate |].
    intros v H. injection H as <-. simpl.
    split; [| split; [| split; [| split]]].
    + unfold challengerName. apply orElse_nonempty, orElse_nonempty.
      discriminate.
    + intros ch' u H Hu. injection H as <-. rewrite Hu.
      unfold challengerName, field. split; [| split].
      * intros Ht. apply (orElse_truthy _ _ Ht).
      * intros Hf Ht.
        assert (E : orElse (firstName u)
                           (orElse (username u) "another user")
                    = orElse (username u) "another user").
        { unfold orElse at 1. unfold messageOr, truthy in *.
          destruct (firstName u) as [m|]; [| reflexivity].
          apply negb_false_iff in Hf. rewrite Hf. reflexivity. }
        rewrite E. apply (orElse_truthy _ _ Ht).
      * intros Hf Hf'. unfold orElse, messageOr, truthy in *.
        destruct (firstName u) as [m|], (username u) as [n|];
          repeat match goal with
                 | H : negb _ = false |- _ => apply negb_false_iff in H; rewrite H
                 end; reflexivity.
    + intros ch' H Hu. injection H as <-. rewrite Hu. reflexivity.
    + intros src alt H.
      destruct (truthy (field (challengerUser ch) profileImageUrl)) eqn:Et;
        [| discriminate].
      injection H as <- <-. split.
      * apply (orElse_truthy _ "" Et).
      * apply orElse_nonempty. discriminate.
    + unfold truthy. destruct error as [m|]; [| discriminate].
      destruct (String.eqb m "") eqn:E; simpl; [discriminate |].
      intros H. injection H as ->. discriminate.
  - split; [split; reflexivity |]. intros v H. discriminate.
Qed.

End AcceptChallengeModalFacts.

(** ** The proof list and the progress bar *)

(** X21 — Refetching the proofs never touches the selection. A fetch of the
    proofs replaces the tiles by the answered list (by no tiles at all when
    the body is [null]) and keeps them when it fails; in every case the
    selected proof and the state of the vote buttons are as before, also
    when the selected proof is no longer among the tiles. *)
Theorem refetch_keeps_selection (answer : FetchAnswer (option (list Proof)))
        (s : PanelState) :
  selectedProof (stateOf (step (EvFetchProofs answer) s)) = selectedProof s
  /\ voteButtonsDisabled (render (stateOf (step (EvFetchProofs answer) s)))
     = voteButtonsDisabled (render s)
  /\ proofTiles (render (stateOf (step (EvFetchProofs answer) s)))
     = match answer with
       | FetchOk (Some data) => data
       | FetchOk None => []
       | _ => proofTiles (render s)
       end
  /\ (answer = FetchThrows \/ answer = FetchNotOk ->
      stateOf (step (EvFetchProofs answer) s) = s).
Proof.
  unfold step. rewrite fetchProofs_run.
  destruct answer as [| |[data|]]; simpl; repeat split;
    intros [H | H]; discriminate H.
Qed.

Lemma handleFile_progress file uploadAnswer digestAnswer registerAnswer
      proofsAnswer (s : PanelState) :
  In (progress (stateOf (handleFile file uploadAnswer digestAnswer
                                    registerAnswer proofsAnswer s)))
     [5; 40; 60; 100]%Z.
Proof.
  destruct uploadAnswer as [| |uploadJson]; simpl; auto.
  destruct digestAnswer as [hashArray|]; simpl; auto.
  destruct registerAnswer as [proof|]; simpl; auto.
  destruct proofsAnswer as [| |data]; simpl; auto.
Qed.

Lemma step_progress (e : Event) (s : PanelState) :
  progress (stateOf (step e s)) = progress s
  \/ In (progress (stateOf (step e s))) [0; 5; 40; 60; 100]%Z.
Proof.
  destruct e; unfold step.
  - rewrite fetchProofs_run. destruct answer; simpl; auto.
  - rewrite fetchVotes_run. destruct answer; simpl; auto.
    destruct (autoReleaseCheck (buildVoteMap json)); simpl; auto.
  - rewrite countdownTick_run. simpl. auto.
  - destruct (nth_error _ _); simpl; auto.
  - destruct (uploadDisabled (render s)); [simpl; auto |].
    right. right. apply handleFile_progress.
  - simpl. auto.
  - destruct (voteButtonsDisabled (render s)) as [[|]|]; simpl; auto.
    rewrite handleVote_run.
    destruct (selectedProof s); simpl; auto.
    destruct voteAnswer; simpl; auto.
    rewrite fetchVotes_run. destruct votesAnswer; simpl; auto.
    destruct (autoReleaseCheck (buildVoteMap json)); simpl; auto.
  - destruct (disputeMenu (render s)) as [menu|]; simpl; auto.
    destruct (chevronButton menu); simpl; auto.
  - destruct (disputeMenu (render s)) as [menu|]; simpl; auto.
    destruct (openDisputeButton menu) as [[|]|]; simpl; auto.
    rewrite handleOpenDispute_run. destruct disputeAnswer; simpl; auto.
Qed.

(** X22 — The progress is a percentage. In every state the panel can reach
    once its handlers have run, the progress is one of 0, 5, 40, 60 and 100:
    a finished upload leaves 100 until the reset to 0, and an upload that
    failed leaves the value of the stage it reached. *)
Theorem progress_is_a_percentage (es : list Event) :
  In (progress (fst (run es initialState))) [0; 5; 40; 60; 100]%Z
  /\ (0 <= progress (fst (run es initialState)) <= 100)%Z.
Proof.
  assert (Hrun : forall es s,
             In (progress s) [0; 5; 40; 60; 100]%Z ->
             In (progress (fst (run es s))) [0; 5; 40; 60; 100]%Z).
  { clear es. induction es as [|e es IH]; intros s Hs; [exact Hs |].
    rewrite run_cons. cbn [fst]. apply IH.
    destruct (step_progress e s) as [-> | H]; assumption. }
  assert (H : In (progress (fst (run es initialState))) [0; 5; 40; 60; 100]%Z)
    by (apply Hrun; left; reflexivity).
  split; [exact H |].
  simpl in H. lia.
Qed.

(** ** Two votes that differ *)







(** ** Votes and the proofs they reference *)








